(** * Tesla Outrun: the simulation core of [src/lib/TeslaOutrun.svelte]

    A shallow embedding of the per-frame update loop ([updateGame]), the
    obstacle spawner, the collision detector, the score tracker, the key
    handler and the session commands of the game, followed by the
    properties of the specification that concern them.

    Numbers are JavaScript numbers, that is IEEE-754 binary64 values with
    round-to-nearest-even arithmetic; they are modelled by the kernel's
    executable specification of that format ([SpecFloat], precision 53,
    maximal exponent 1024), so every definition below computes exactly what
    the script computes. *)

From Stdlib Require Import ZArith List Bool Lia PeanoNat.
From Stdlib Require Import SpecFloat.
From Stdlib Require Import Sorted Permutation.
From Stdlib Require String.
Import ListNotations.

(** ** JavaScript numbers *)

Module JS.

Definition number : Type := spec_float.

Definition prec : Z := 53.
Definition emax : Z := 1024.

Definition add : number -> number -> number := SFadd prec emax.
Definition sub : number -> number -> number := SFsub prec emax.
Definition mul : number -> number -> number := SFmul prec emax.
Definition div : number -> number -> number := SFdiv prec emax.

(** [x < y], [x > y], [x <= y]: false as soon as one side is NaN. *)
Definition ltb (x y : number) : bool := SFltb x y.
Definition gtb (x y : number) : bool := SFltb y x.
Definition leb (x y : number) : bool := SFleb x y.

Definition NaN : number := S754_nan.

Definition isNaN (x : number) : bool :=
  match x with S754_nan => true | _ => false end.

(** An integer literal. *)
Definition ofZ (z : Z) : number := binary_normalize prec emax z 0 false.

(** A decimal literal [m / 10^k] (for instance [dec 95 2] is [0.95]):
    the binary64 value nearest to the decimal, which is what the
    correctly rounded quotient of the two exact integers gives. *)
Definition dec (m : Z) (k : Z) : number := div (ofZ m) (ofZ (10 ^ k)).

Definition isNegZero (x : number) : bool :=
  match x with S754_zero true => true | _ => false end.

(** [Math.min(x, y)] and [Math.max(x, y)]: NaN when an argument is NaN,
    and [-0] counts as smaller than [+0]. *)
Definition Math_min (x y : number) : number :=
  if isNaN x || isNaN y then NaN
  else if ltb x y then x
  else if ltb y x then y
  else if isNegZero x then x else y.

Definition Math_max (x y : number) : number :=
  if isNaN x || isNaN y then NaN
  else if ltb x y then y
  else if ltb y x then x
  else if isNegZero x then y else x.

(** [Math.floor(x)] of a finite number, as an integer; [None] for NaN and
    the infinities, which [Math.floor] returns unchanged. *)
Definition Math_floor (x : number) : option Z :=
  match x with
  | S754_zero _ => Some 0%Z
  | S754_finite s m e =>
      let v := if s then Zneg m else Zpos m in
      Some (match e with
            | Zneg p => Z.shiftr v (Zpos p)
            | _ => Z.shiftl v e
            end)
  | _ => None
  end.

End JS.

Import JS.

Declare Scope js_scope.
Delimit Scope js_scope with js.
Bind Scope js_scope with number.
Infix "+" := JS.add : js_scope.
Infix "-" := JS.sub : js_scope.
Infix "*" := JS.mul : js_scope.
Infix "/" := JS.div : js_scope.
Infix "<?" := JS.ltb : js_scope.
Infix ">?" := JS.gtb : js_scope.
Infix "<=?" := JS.leb : js_scope.
Open Scope js_scope.

(** Arithmetic on numbers is evaluated on request ([vm_compute]) only. *)
Arguments JS.add : simpl never.
Arguments JS.sub : simpl never.
Arguments JS.mul : simpl never.
Arguments JS.div : simpl never.
Arguments JS.ltb : simpl never.
Arguments JS.gtb : simpl never.
Arguments JS.leb : simpl never.
Arguments JS.ofZ : simpl never.
Arguments JS.dec : simpl never.

(** ** Data model *)

(** [THREE.Vector3]: the [position] of an object. *)
Record Vector3 : Type := mkVector3 {
  posX : number;
  posY : number;
  posZ : number
}.

(** The three obstacle categories, told apart in the script by the
    [userData] flags [isCar], [isBarrier] and [isRocket] (the hazard). *)
Inductive Category : Type := Car | Barrier | Rocket.

(** [userData] of the player and of the obstacles.  [category] is [None]
    when none of the three flags is set (the player); [overtaken] is [None]
    while the property is undefined, which is how [spawnObstacle] leaves it
    on a barrier.  [width] and [height] are the lateral and longitudinal
    extents the collision test reads. *)
Record UserData : Type := mkUserData {
  category : option Category;
  overtaken : option bool;
  width : number;
  height : number
}.

(** [THREE.Object3D], reduced to what the simulation reads and writes.
    [uid] stands for the identity of the JavaScript object, which
    [indexOf] compares. *)
Record Object3D : Type := mkObject3D {
  uid : nat;
  position : Vector3;
  userData : UserData
}.

(** An entry [{ mesh, z }] of [roadSegments], [roadStripes] or [buildings]:
    [meshZ] is [mesh.position.z], [itemZ] is the entry's own [z]. *)
Record RoadItem : Type := mkRoadItem {
  meshZ : number;
  itemZ : number
}.

(** An entry [{ trunk, foliage, z }] of [trees]: the [position.z] of the two
    meshes and the entry's own [z]. *)
Record Tree : Type := mkTree {
  trunkZ : number;
  foliageZ : number;
  treeZ : number
}.

(** One execution of the award branch of [updateScore]: the obstacle
    credited, its category, its [position.z] and the player's at that
    moment. *)
Record Award : Type := mkAward {
  awardUid : nat;
  awardCategory : option Category;
  awardZ : number;
  awardPlayerZ : number
}.

(** The two [Math.random()] draws [spawnObstacle] decides on: the lane and
    the obstacle type.  (A third draw picks a car's colour.) *)
Record Random : Type := mkRandom {
  laneDraw : number;
  typeDraw : number
}.

(** The globals of the script that the simulation core uses.  [lives] and
    [carsOvertaken] only ever hold small integers and [lane] a lane index,
    so they are integers here.  [gameOverScreen] is the display state of
    the [#game-over] element.  The last two fields are not variables of
    the script: [nextId] is the supply of object identities (every
    [new THREE.Group()] or [new THREE.Mesh()] is a new object) and
    [overtakeLog] is the history of awards, oldest first; no decision of
    the program depends on either.  The smoke, sun and lightning effects
    read [elapsedTime] and the player's position and write only variables
    of their own; they are left out. *)
Record State : Type := mkState {
  score : number;
  speed : number;
  gameActive : bool;
  lane : nat;
  elapsedTime : number;
  lastObstacleTime : number;
  carsOvertaken : Z;
  lives : Z;
  isJumping : bool;
  jumpHeight : number;
  jumpVelocity : number;
  jumpStartTime : number;
  isPaused : bool;
  player : Object3D;
  obstacles : list Object3D;
  roadSegments : list RoadItem;
  roadStripes : list RoadItem;
  trees : list Tree;
  buildings : list RoadItem;
  gameOverScreen : bool;
  nextId : nat;
  overtakeLog : list Award
}.

(** Assignments to one global, the others unchanged. *)
Definition set_score (v : number) (s : State) : State :=
  mkState v (speed s) (gameActive s) (lane s) (elapsedTime s)
    (lastObstacleTime s) (carsOvertaken s) (lives s) (isJumping s)
    (jumpHeight s) (jumpVelocity s) (jumpStartTime s) (isPaused s)
    (player s) (obstacles s) (roadSegments s) (roadStripes s) (trees s)
    (buildings s) (gameOverScreen s) (nextId s) (overtakeLog s).
Definition set_speed (v : number) (s : State) : State :=
  mkState (score s) v (gameActive s) (lane s) (elapsedTime s)
    (lastObstacleTime s) (carsOvertaken s) (lives s) (isJumping s)
    (jumpHeight s) (jumpVelocity s) (jumpStartTime s) (isPaused s)
    (player s) (obstacles s) (roadSegments s) (roadStripes s) (trees s)
    (buildings s) (gameOverScreen s) (nextId s) (overtakeLog s).
Definition set_gameActive (v : bool) (s : State) : State :=
  mkState (score s) (speed s) v (lane s) (elapsedTime s)
    (lastObstacleTime s) (carsOvertaken s) (lives s) (isJumping s)
    (jumpHeight s) (jumpVelocity s) (jumpStartTime s) (isPaused s)
    (player s) (obstacles s) (roadSegments s) (roadStripes s) (trees s)
    (buildings s) (gameOverScreen s) (nextId s) (overtakeLog s).
Definition set_lane (v : nat) (s : State) : State :=
  mkState (score s) (speed s) (gameActive s) v (elapsedTime s)
    (lastObstacleTime s) (carsOvertaken s) (lives s) (isJumping s)
    (jumpHeight s) (jumpVelocity s) (jumpStartTime s) (isPaused s)
    (player s) (obstacles s) (roadSegments s) (roadStripes s) (trees s)
    (buildings s) (gameOverScreen s) (nextId s) (overtakeLog s).
Definition set_elapsedTime (v : number) (s : State) : State :=
  mkState (score s) (speed s) (gameActive s) (lane s) v
    (lastObstacleTime s) (carsOvertaken s) (lives s) (isJumping s)
    (jumpHeight s) (jumpVelocity s) (jumpStartTime s) (isPaused s)
    (player s) (obstacles s) (roadSegments s) (roadStripes s) (trees s)
    (buildings s) (gameOverScreen s) (nextId s) (overtakeLog s).
Definition set_lastObstacleTime (v : number) (s : State) : State :=
  mkState (score s) (speed s) (gameActive s) (lane s) (elapsedTime s) v
    (carsOvertaken s) (lives s) (isJumping s) (jumpHeight s)
    (jumpVelocity s) (jumpStartTime s) (isPaused s) (player s)
    (obstacles s) (roadSegments s) (roadStripes s) (trees s) (buildings s)
    (gameOverScreen s) (nextId s) (overtakeLog s).
Definition set_carsOvertaken (v : Z) (s : State) : State :=
  mkState (score s) (speed s) (gameActive s) (lane s) (elapsedTime s)
    (lastObstacleTime s) v (lives s) (isJumping s) (jumpHeight s)
    (jumpVelocity s) (jumpStartTime s) (isPaused s) (player s)
    (obstacles s) (roadSegments s) (roadStripes s) (trees s) (buildings s)
    (gameOverScreen s) (nextId s) (overtakeLog s).
Definition set_lives (v : Z) (s : State) : State :=
  mkState (score s) (speed s) (gameActive s) (lane s) (elapsedTime s)
    (lastObstacleTime s) (carsOvertaken s) v (isJumping s) (jumpHeight s)
    (jumpVelocity s) (jumpStartTime s) (isPaused s) (player s)
    (obstacles s) (roadSegments s) (roadStripes s) (trees s) (buildings s)
    (gameOverScreen s) (nextId s) (overtakeLog s).
Definition set_isJumping (v : bool) (s : State) : State :=
  mkState (score s) (speed s) (gameActive s) (lane s) (elapsedTime s)
    (lastObstacleTime s) (carsOvertaken s) (lives s) v (jumpHeight s)
    (jumpVelocity s) (jumpStartTime s) (isPaused s) (player s)
    (obstacles s) (roadSegments s) (roadStripes s) (trees s) (buildings s)
    (gameOverScreen s) (nextId s) (overtakeLog s).
Definition set_jumpHeight (v : number) (s : State) : State :=
  mkState (score s) (speed s) (gameActive s) (lane s) (elapsedTime s)
    (lastObstacleTime s) (carsOvertaken s) (lives s) (isJumping s) v
    (jumpVelocity s) (jumpStartTime s) (isPaused s) (player s)
    (obstacles s) (roadSegments s) (roadStripes s) (trees s) (buildings s)
    (gameOverScreen s) (nextId s) (overtakeLog s).
Definition set_jumpVelocity (v : number) (s : State) : State :=
  mkState (score s) (speed s) (gameActive s) (lane s) (elapsedTime s)
    (lastObstacleTime s) (carsOvertaken s) (lives s) (isJumping s)
    (jumpHeight s) v (jumpStartTime s) (isPaused s) (player s)
    (obstacles s) (roadSegments s) (roadStripes s) (trees s) (buildings s)
    (gameOverScreen s) (nextId s) (overtakeLog s).
Definition set_jumpStartTime (v : number) (s : State) : State :=
  mkState (score s) (speed s) (gameActive s) (lane s) (elapsedTime s)
    (lastObstacleTime s) (carsOvertaken s) (lives s) (isJumping s)
    (jumpHeight s) (jumpVelocity s) v (isPaused s) (player s) (obstacles s)
    (roadSegments s) (roadStripes s) (trees s) (buildings s)
    (gameOverScreen s) (nextId s) (overtakeLog s).
Definition set_isPaused (v : bool) (s : State) : State :=
  mkState (score s) (speed s) (gameActive s) (lane s) (elapsedTime s)
    (lastObstacleTime s) (carsOvertaken s) (lives s) (isJumping s)
    (jumpHeight s) (jumpVelocity s) (jumpStartTime s) v (player s)
    (obstacles s) (roadSegments s) (roadStripes s) (trees s) (buildings s)
    (gameOverScreen s) (nextId s) (overtakeLog s).
Definition set_player (v : Object3D) (s : State) : State :=
  mkState (score s) (speed s) (gameActive s) (lane s) (elapsedTime s)
    (lastObstacleTime s) (carsOvertaken s) (lives s) (isJumping s)
    (jumpHeight s) (jumpVelocity s) (jumpStartTime s) (isPaused s) v
    (obstacles s) (roadSegments s) (roadStripes s) (trees s) (buildings s)
    (gameOverScreen s) (nextId s) (overtakeLog s).
Definition set_obstacles (v : list Object3D) (s : State) : State :=
  mkState (score s) (speed s) (gameActive s) (lane s) (elapsedTime s)
    (lastObstacleTime s) (carsOvertaken s) (lives s) (isJumping s)
    (jumpHeight s) (jumpVelocity s) (jumpStartTime s) (isPaused s)
    (player s) v (roadSegments s) (roadStripes s) (trees s) (buildings s)
    (gameOverScreen s) (nextId s) (overtakeLog s).
Definition set_roadSegments (v : list RoadItem) (s : State) : State :=
  mkState (score s) (speed s) (gameActive s) (lane s) (elapsedTime s)
    (lastObstacleTime s) (carsOvertaken s) (lives s) (isJumping s)
    (jumpHeight s) (jumpVelocity s) (jumpStartTime s) (isPaused s)
    (player s) (obstacles s) v (roadStripes s) (trees s) (buildings s)
    (gameOverScreen s) (nextId s) (overtakeLog s).
Definition set_roadStripes (v : list RoadItem) (s : State) : State :=
  mkState (score s) (speed s) (gameActive s) (lane s) (elapsedTime s)
    (lastObstacleTime s) (carsOvertaken s) (lives s) (isJumping s)
    (jumpHeight s) (jumpVelocity s) (jumpStartTime s) (isPaused s)
    (player s) (obstacles s) (roadSegments s) v (trees s) (buildings s)
    (gameOverScreen s) (nextId s) (overtakeLog s).
Definition set_trees (v : list Tree) (s : State) : State :=
  mkState (score s) (speed s) (gameActive s) (lane s) (elapsedTime s)
    (lastObstacleTime s) (carsOvertaken s) (lives s) (isJumping s)
    (jumpHeight s) (jumpVelocity s) (jumpStartTime s) (isPaused s)
    (player s) (obstacles s) (roadSegments s) (roadStripes s) v
    (buildings s) (gameOverScreen s) (nextId s) (overtakeLog s).
Definition set_buildings (v : list RoadItem) (s : State) : State :=
  mkState (score s) (speed s) (gameActive s) (lane s) (elapsedTime s)
    (lastObstacleTime s) (carsOvertaken s) (lives s) (isJumping s)
    (jumpHeight s) (jumpVelocity s) (jumpStartTime s) (isPaused s)
    (player s) (obstacles s) (roadSegments s) (roadStripes s) (trees s) v
    (gameOverScreen s) (nextId s) (overtakeLog s).
Definition set_gameOverScreen (v : bool) (s : State) : State :=
  mkState (score s) (speed s) (gameActive s) (lane s) (elapsedTime s)
    (lastObstacleTime s) (carsOvertaken s) (lives s) (isJumping s)
    (jumpHeight s) (jumpVelocity s) (jumpStartTime s) (isPaused s)
    (player s) (obstacles s) (roadSegments s) (roadStripes s) (trees s)
    (buildings s) v (nextId s) (overtakeLog s).
Definition set_nextId (v : nat) (s : State) : State :=
  mkState (score s) (speed s) (gameActive s) (lane s) (elapsedTime s)
    (lastObstacleTime s) (carsOvertaken s) (lives s) (isJumping s)
    (jumpHeight s) (jumpVelocity s) (jumpStartTime s) (isPaused s)
    (player s) (obstacles s) (roadSegments s) (roadStripes s) (trees s)
    (buildings s) (gameOverScreen s) v (overtakeLog s).
Definition set_overtakeLog (v : list Award) (s : State) : State :=
  mkState (score s) (speed s) (gameActive s) (lane s) (elapsedTime s)
    (lastObstacleTime s) (carsOvertaken s) (lives s) (isJumping s)
    (jumpHeight s) (jumpVelocity s) (jumpStartTime s) (isPaused s)
    (player s) (obstacles s) (roadSegments s) (roadStripes s) (trees s)
    (buildings s) (gameOverScreen s) (nextId s) v.

Definition setX (v : number) (o : Object3D) : Object3D :=
  mkObject3D (uid o) (mkVector3 v (posY (position o)) (posZ (position o)))
             (userData o).
Definition setY (v : number) (o : Object3D) : Object3D :=
  mkObject3D (uid o) (mkVector3 (posX (position o)) v (posZ (position o)))
             (userData o).
Definition setZ (v : number) (o : Object3D) : Object3D :=
  mkObject3D (uid o) (mkVector3 (posX (position o)) (posY (position o)) v)
             (userData o).
Definition set_overtaken (v : option bool) (o : Object3D) : Object3D :=
  mkObject3D (uid o) (position o)
             (mkUserData (category (userData o)) v (width (userData o))
                         (height (userData o))).

(** ** Tuning constants (the [let] globals that are never reassigned) *)

Definition maxSpeed : number := ofZ 500.
Definition acceleration : number := ofZ 2.
Definition brakeForce : number := ofZ 5.
Definition deceleration : number := dec 95 2.
Definition lanePositions : list number := [ofZ (-4); ofZ 0; ofZ 4].
Definition roadLength : number := ofZ 2000.
Definition segmentLength : number := ofZ 20.
Definition cameraDistance : number := ofZ (-15).
Definition obstacleInterval : number := ofZ 2.
Definition jumpGravity : number := dec 1 2.
Definition maxJumpHeight : number := ofZ 5.
Definition jumpInitialVelocity : number := ofZ 15.

(** [lanePositions[i]]; an index outside the array reads [undefined], and
    every use of the value is arithmetic or a comparison, where [undefined]
    behaves as NaN. *)
Definition lanePosition (i : nat) : number := nth i lanePositions NaN.

(** ** The session commands *)

(** [gameOver()]: stops the frame updates and shows the game-over screen. *)
Definition gameOver (s : State) : State :=
  set_gameOverScreen true (set_gameActive false s).

(** [startGame()]. *)
Definition startGame (s : State) : State :=
  let s := set_gameActive true s in
  let s := set_speed (ofZ 0) s in
  let s := set_score (ofZ 0) s in
  let s := set_carsOvertaken 0%Z s in
  let s := set_elapsedTime (ofZ 0) s in
  let s := set_lastObstacleTime (ofZ 0) s in
  set_lives 3%Z s.

(** [restartGame()]: clears the obstacles, puts the player back, hides the
    game-over screen and starts the game. *)
Definition restartGame (s : State) : State :=
  let s := set_obstacles [] s in
  let s := set_player
             (mkObject3D (uid (player s)) (mkVector3 (ofZ 0) (ofZ 0) (ofZ 0))
                         (userData (player s))) s in
  let s := set_lane 1%nat s in
  let s := set_gameOverScreen false s in
  startGame s.

(** ** The obstacle spawner *)

(** [spawnObstacle()], with the outcomes of its [Math.random()] calls. *)
Definition spawnObstacle (r : Random) (s : State) : State :=
  let obstacleLane := Math_floor (laneDraw r * ofZ 3) in
  let obstacleType := typeDraw r in
  let '(cat, flag) :=
    if obstacleType <? dec 7 1 then (Car, Some false)
    else if obstacleType <? dec 85 2 then (Barrier, None)
    else (Rocket, Some false) in
  let laneX :=
    match obstacleLane with
    | Some i => if (i <? 0)%Z then NaN else lanePosition (Z.to_nat i)
    | None => NaN
    end in
  let obstacle :=
    mkObject3D (nextId s)
               (mkVector3 laneX (ofZ 1) (roadLength / ofZ 2))
               (mkUserData (Some cat) flag (ofZ 3) (ofZ 5)) in
  set_nextId (S (nextId s)) (set_obstacles (obstacles s ++ [obstacle]) s).

(** ** The collision detector *)

(** [obstacles.indexOf(obstacle)]: the first index holding that very
    object, [None] for the script's [-1]. *)
Fixpoint indexOf (o : Object3D) (l : list Object3D) : option nat :=
  match l with
  | [] => None
  | o' :: rest =>
      if Nat.eqb (uid o') (uid o) then Some 0%nat
      else option_map S (indexOf o rest)
  end.

Fixpoint removeAt (i : nat) (l : list Object3D) : list Object3D :=
  match l, i with
  | [], _ => []
  | _ :: rest, O => rest
  | o :: rest, S j => o :: removeAt j rest
  end.

(** [l.splice(i, 1)] for the index [indexOf] found; [splice(-1, 1)] removes
    the last element. *)
Definition splice1 (i : option nat) (l : list Object3D) : list Object3D :=
  match i with
  | Some i => removeAt i l
  | None => removelast l
  end.

(** [handleCollision(obstacle)].  With lives left the script only adds the
    "Press SPACE to continue" message to the page. *)
Definition handleCollision (obstacle : Object3D) (s : State) : State :=
  let s := set_obstacles (splice1 (indexOf obstacle (obstacles s))
                                  (obstacles s)) s in
  let s := set_lives (lives s - 1)%Z s in
  let s := set_isPaused true s in
  if (lives s <=? 0)%Z then gameOver s else s.

(** The overlap test of [checkCollisions] between the player and one
    obstacle. *)
Definition overlaps (p o : Object3D) : bool :=
  let playerLeft := posX (position p) - width (userData p) / ofZ 2 in
  let playerRight := posX (position p) + width (userData p) / ofZ 2 in
  let playerFront := posZ (position p) + height (userData p) / ofZ 2 in
  let playerBack := posZ (position p) - height (userData p) / ofZ 2 in
  let playerBottom := posY (position p) in
  let playerTop := posY (position p) + ofZ 2 in
  let obstacleLeft := posX (position o) - width (userData o) / ofZ 2 in
  let obstacleRight := posX (position o) + width (userData o) / ofZ 2 in
  let obstacleFront := posZ (position o) + height (userData o) / ofZ 2 in
  let obstacleBack := posZ (position o) - height (userData o) / ofZ 2 in
  let obstacleBottom := posY (position o) in
  let obstacleTop := posY (position o) + ofZ 2 in
  (playerRight >? obstacleLeft) &&
  (playerLeft <? obstacleRight) &&
  (playerFront >? obstacleBack) &&
  (playerBack <? obstacleFront) &&
  (playerTop >? obstacleBottom) &&
  (playerBottom <? obstacleTop).

(** [checkCollisions()]: nothing while jumping above 2; otherwise the first
    obstacle (in array order) that overlaps the player is handled and the
    scan stops. *)
Definition checkCollisions (s : State) : State :=
  if isJumping s && (jumpHeight s >? ofZ 2) then s
  else
    match find (overlaps (player s)) (obstacles s) with
    | Some obstacle => handleCollision obstacle s
    | None => s
    end.

(** ** The score tracker *)

(** The test of the overtake loop: [isCar || isRocket], [!overtaken]
    (an undefined flag is falsy) and the obstacle behind the player. *)
Definition overtakeable (o : Object3D) : bool :=
  match category (userData o) with
  | Some Car | Some Rocket => true
  | _ => false
  end.

Definition notOvertaken (o : Object3D) : bool :=
  match overtaken (userData o) with
  | Some true => false
  | _ => true
  end.

Definition passes (playerZ : number) (o : Object3D) : bool :=
  overtakeable o && notOvertaken o && (posZ (position o) <? playerZ).

(** The loop of [updateScore] over [obstacles], in array order, threading
    [score], [carsOvertaken] and the award history. *)
Fixpoint overtakeLoop (playerZ : number) (l : list Object3D)
         (sc : number) (n : Z) (log : list Award)
  : list Object3D * number * Z * list Award :=
  match l with
  | [] => ([], sc, n, log)
  | o :: rest =>
      if passes playerZ o then
        let '(rest', sc', n', log') :=
          overtakeLoop playerZ rest (sc + ofZ 100) (n + 1)%Z
            (log ++ [mkAward (uid o) (category (userData o))
                             (posZ (position o)) playerZ]) in
        (set_overtaken (Some true) o :: rest', sc', n', log')
      else
        let '(rest', sc', n', log') := overtakeLoop playerZ rest sc n log in
        (o :: rest', sc', n', log')
  end.

(** [updateScore(deltaTime)]. *)
Definition updateScore (deltaTime : number) (s : State) : State :=
  let s := set_score (score s + deltaTime * speed s / ofZ 10) s in
  let '(obs, sc, n, log) :=
    overtakeLoop (posZ (position (player s))) (obstacles s)
                 (score s) (carsOvertaken s) (overtakeLog s) in
  set_overtakeLog log
    (set_carsOvertaken n (set_score sc (set_obstacles obs s))).

(** ** The frame update *)

(** The backward loop over [obstacles] in [updateGame]: each obstacle moves
    back by [moveDistance] and is spliced out once behind the camera.  The
    loop runs from the last index down, so a removal never shifts an
    obstacle still to be visited. *)
Fixpoint moveObstacles (moveDistance : number) (l : list Object3D)
  : list Object3D :=
  match l with
  | [] => []
  | obstacle :: rest =>
      let rest' := moveObstacles moveDistance rest in
      let obstacle' :=
        setZ (posZ (position obstacle) - moveDistance) obstacle in
      if posZ (position obstacle') <? cameraDistance then rest'
      else obstacle' :: rest'
  end.

(** The body of the loops over [roadSegments] and [roadStripes]; [margin]
    is [segmentLength / 2] for the former and [20] for the latter. *)
Definition scrollItem (margin moveDistance : number) (it : RoadItem)
  : RoadItem :=
  let z := itemZ it - moveDistance in
  let m := meshZ it - moveDistance in
  if z <? cameraDistance - margin
  then mkRoadItem (m + roadLength) (z + roadLength)
  else mkRoadItem m z.

(** The body of the loop over [trees]. *)
Definition scrollTree (moveDistance : number) (t : Tree) : Tree :=
  let trunk := trunkZ t - moveDistance in
  let foliage := foliageZ t - moveDistance in
  if trunk <? cameraDistance - ofZ 20 then
    let resetDistance := roadLength + (cameraDistance - trunk) in
    mkTree (trunk + resetDistance) (foliage + resetDistance) (treeZ t)
  else mkTree trunk foliage (treeZ t).

(** The body of the loop over [buildings]. *)
Definition scrollBuilding (moveDistance : number) (b : RoadItem)
  : RoadItem :=
  let m := meshZ b - moveDistance in
  if m <? cameraDistance - ofZ 20 then
    let resetDistance := roadLength + (cameraDistance - m) in
    mkRoadItem (m + resetDistance) (itemZ b)
  else mkRoadItem m (itemZ b).

(** The jump block of [updateGame]: explicit Euler integration with the
    ceiling at [maxJumpHeight], landing as soon as the height is not
    positive; then the player's [position.y] follows. *)
Definition jumpPhysics (s : State) : State :=
  if isJumping s then
    let s := set_jumpHeight (jumpHeight s + jumpVelocity s) s in
    let s := set_jumpVelocity (jumpVelocity s - jumpGravity) s in
    let s :=
      if jumpHeight s >? maxJumpHeight
      then set_jumpVelocity (ofZ 0) (set_jumpHeight maxJumpHeight s)
      else s in
    let s :=
      if jumpHeight s <=? ofZ 0
      then set_jumpVelocity (ofZ 0)
             (set_jumpHeight (ofZ 0) (set_isJumping false s))
      else s in
    set_player (setY (jumpHeight s) (player s)) s
  else set_player (setY (ofZ 0) (player s)) s.

(** The condition under which [updateGame] spawns an obstacle: the time
    since the last spawn exceeds a threshold that depends on the speed. *)
Definition spawnThreshold (v : number) : number :=
  obstacleInterval - (v / maxSpeed) * (obstacleInterval - dec 5 1).

Definition spawnGate (s : State) : bool :=
  elapsedTime s - lastObstacleTime s >? spawnThreshold (speed s).

(** The blocks of [updateGame], in the order of the script. *)

(** Auto-acceleration below 40% of [maxSpeed], deceleration, clamp. *)
Definition updateSpeed (s : State) : State :=
  let s := if speed s <? maxSpeed * dec 4 1
           then set_speed (speed s + acceleration) s else s in
  let s := set_speed (speed s * deceleration) s in
  set_speed (Math_max (ofZ 0) (Math_min maxSpeed (speed s))) s.

(** The car eases towards its lane by a tenth of the remaining distance. *)
Definition steer (s : State) : State :=
  let targetX := lanePosition (lane s) in
  set_player
    (setX (posX (position (player s))
           + (targetX - posX (position (player s))) * dec 1 1)
          (player s)) s.

(** The spawn check. *)
Definition spawnCheck (r : Random) (s : State) : State :=
  if spawnGate s
  then set_lastObstacleTime (elapsedTime s) (spawnObstacle r s)
  else s.

(** The four scenery loops. *)
Definition scrollScenery (moveDistance : number) (s : State) : State :=
  let s :=
    set_roadSegments
      (map (scrollItem (segmentLength / ofZ 2) moveDistance)
           (roadSegments s)) s in
  let s :=
    set_roadStripes
      (map (scrollItem (ofZ 20) moveDistance) (roadStripes s)) s in
  let s := set_trees (map (scrollTree moveDistance) (trees s)) s in
  set_buildings (map (scrollBuilding moveDistance) (buildings s)) s.

(** "Move obstacles and road": the obstacles, the spawn check, the
    scenery. *)
Definition scrollWorld (moveDistance : number) (r : Random) (s : State)
  : State :=
  scrollScenery moveDistance
    (spawnCheck r
       (set_obstacles (moveObstacles moveDistance (obstacles s)) s)).

(** What [updateGame] does after the pause test: first everything up to
    the score update, then the scrolling of the world. *)
Definition beforeScroll (deltaTime : number) (s : State) : State :=
  updateScore deltaTime
    (checkCollisions (steer (jumpPhysics (updateSpeed s)))).

Definition simulate (deltaTime : number) (r : Random) (s : State) : State :=
  let s := beforeScroll deltaTime s in
  let moveDistance := speed s * deltaTime in
  scrollWorld moveDistance r s.

(** [updateGame(deltaTime)], with the random draws a spawn would make. *)
Definition updateGame (deltaTime : number) (r : Random) (s : State)
  : State :=
  let s := set_elapsedTime (elapsedTime s + deltaTime) s in
  if isPaused s then s else simulate deltaTime r s.

(** [animate()]: one display refresh, [deltaTime] being [clock.getDelta()]. *)
Definition animate (deltaTime : number) (r : Random) (s : State) : State :=
  if gameActive s then updateGame deltaTime r s else s.

(** ** The key handler *)

(** [event.key]; ['j'] and ['J'] act alike, and the keys of the smoke, sun
    and lightning effects fall under [OtherKey]. *)
Inductive Key : Type :=
  ArrowRight | ArrowLeft | ArrowUp | ArrowDown | Space | KeyJ | OtherKey.

(** The jump branch shared by the space bar and ['j']. *)
Definition startJump (s : State) : State :=
  if isJumping s then s
  else
    let s := set_isJumping true s in
    let s := set_jumpVelocity jumpInitialVelocity s in
    let s := set_jumpHeight (ofZ 0) s in
    set_jumpStartTime (elapsedTime s) s.

(** [onKeyDown(event)]. *)
Definition onKeyDown (k : Key) (s : State) : State :=
  if negb (gameActive s) && negb (isPaused s) then s
  else if isPaused s then
    match k with
    | Space => set_isPaused false s
    | _ => s
    end
  else
    match k with
    | ArrowRight =>
        if (0 <? lane s)%nat then set_lane (Nat.pred (lane s)) s else s
    | ArrowLeft =>
        if (lane s <? 2)%nat then set_lane (S (lane s)) s else s
    | ArrowUp =>
        set_speed (Math_min maxSpeed (speed s + acceleration * ofZ 5)) s
    | ArrowDown =>
        set_speed (Math_max (ofZ 0) (speed s - brakeForce * ofZ 5)) s
    | Space =>
        startJump
          (set_speed (Math_max (ofZ 0) (speed s - brakeForce * ofZ 5)) s)
    | KeyJ => startJump s
    | OtherKey => s
    end.

(** ** Sessions *)

(** What can happen to a session: a display refresh, a key press, a click
    on the start button, a click on a restart button. *)
Inductive Event : Type :=
| Refresh (deltaTime : number) (r : Random)
| KeyDown (k : Key)
| ClickStart
| ClickRestart.

Definition step (s : State) (e : Event) : State :=
  match e with
  | Refresh deltaTime r => animate deltaTime r s
  | KeyDown k => onKeyDown k s
  | ClickStart => startGame s
  | ClickRestart => restartGame s
  end.

Definition run (es : list Event) (s : State) : State := fold_left step es s.

(** The state of the session as the script's flags encode it: frames are
    only processed while [gameActive]; among those, [isPaused] freezes the
    update; an inactive game shows either the start screen or, after
    [gameOver()], the game-over screen. *)
Inductive Session : Type := Idle | Running | Paused | GameOver.

Definition session (s : State) : Session :=
  if gameActive s then (if isPaused s then Paused else Running)
  else if gameOverScreen s then GameOver else Idle.

(** The state once the page is mounted: [init()] has built the scenery and
    the player (of width 3 and depth 6, at the origin), no game started. *)
Definition initialState (segs stripes : list RoadItem) (ts : list Tree)
           (bs : list RoadItem) : State :=
  mkState (ofZ 0) (ofZ 0) false 1%nat (ofZ 0) (ofZ 0) 0%Z 3%Z
          false (ofZ 0) (ofZ 0) (ofZ 0) false
          (mkObject3D 0%nat (mkVector3 (ofZ 0) (ofZ 0) (ofZ 0))
                      (mkUserData None None (ofZ 3) (ofZ 6)))
          [] segs stripes ts bs false 1%nat [].

(** * Vocabulary of the statements *)

(** ** Sample sessions

    A short stretch of road, and the states and sessions used to exercise
    the definitions and to instantiate the theorems below. *)

Definition origin : Vector3 := mkVector3 (ofZ 0) (ofZ 0) (ofZ 0).

Definition sampleState : State :=
  initialState
    [mkRoadItem (ofZ 10) (ofZ 0); mkRoadItem (ofZ 30) (ofZ 20)]
    [mkRoadItem (ofZ 0) (ofZ 0); mkRoadItem (ofZ 20) (ofZ 20)]
    [mkTree (ofZ 50) (ofZ 50) (ofZ 50)]
    [mkRoadItem (ofZ 120) (ofZ 120)].

(** A game just started, with nothing on the road. *)
Definition sampleStarted : State := startGame sampleState.

(** A car standing on the player, in the centre lane. *)
Definition carAhead : Object3D :=
  mkObject3D 7%nat (mkVector3 (ofZ 0) (ofZ 1) (ofZ 0))
             (mkUserData (Some Car) (Some false) (ofZ 3) (ofZ 5)).

(** A started game with that car on the road; the same at top speed; the
    same with the vehicle in the air, 3 above the ground. *)
Definition sampleRunning : State :=
  set_nextId 8%nat (set_obstacles [carAhead] sampleStarted).

Definition sampleFast : State := set_speed maxSpeed sampleRunning.

Definition sampleJumping : State :=
  set_jumpHeight (ofZ 3) (set_isJumping true sampleRunning).

(** Draws in the middle of their range: the centre lane, a car. *)
Definition centreDraws : Random := mkRandom (dec 5 1) (dec 5 1).

(** 34 frames of 16 ms. *)
Definition sampleFrames : list (number * Random) :=
  repeat (dec 16 3, centreDraws) 34.

(** A session that ends in GameOver: the game is started, and three times
    a car spawned in the centre lane reaches the player, is hit on the next
    frame, and (the first two times) the space bar resumes the game. *)
Definition fatalSession : list Event :=
  [ ClickStart;
    Refresh (ofZ 3) centreDraws;
    Refresh (ofZ 270) centreDraws;
    Refresh (dec 16 3) centreDraws;
    KeyDown Space;
    Refresh (dec 14185 2) centreDraws;
    Refresh (dec 16 3) centreDraws;
    KeyDown Space;
    Refresh (dec 9932 2) centreDraws;
    Refresh (dec 16 3) centreDraws ].

Definition gameOverState : State := run fatalSession sampleState.

(** A succession of display refreshes. *)
Fixpoint runFrames (fs : list (number * Random)) (s : State) : State :=
  match fs with
  | [] => s
  | (deltaTime, r) :: rest => runFrames rest (animate deltaTime r s)
  end.

(** Every one of them finds the session running. *)
Fixpoint runningThrough (fs : list (number * Random)) (s : State) : Prop :=
  match fs with
  | [] => True
  | (deltaTime, r) :: rest =>
      session s = Running /\ runningThrough rest (animate deltaTime r s)
  end.

(** ** Speed *)

Definition isFinite (x : number) : bool :=
  match x with S754_finite _ _ _ => true | _ => false end.

(** The clamp [Math.max(0, Math.min(maxSpeed, x))] of [updateGame], and
    the range it clamps to. *)
Definition clampSpeed (x : number) : number :=
  Math_max (ofZ 0) (Math_min maxSpeed x).

Definition inSpeedRange (x : number) : bool :=
  (ofZ 0 <=? x) && (x <=? maxSpeed).

(** The speed a running frame leaves: auto-acceleration below 40% of
    [maxSpeed], then the deceleration factor, then the clamp. *)
Definition nextSpeed (v : number) : number :=
  clampSpeed
    ((if v <? maxSpeed * dec 4 1 then v + acceleration else v)
     * deceleration).

(** The distance the world scrolls in a running frame. *)
Definition frameDistance (deltaTime : number) (s : State) : number :=
  nextSpeed (speed s) * deltaTime.

(** ** Spawned obstacles *)

(** The obstacle a spawn appends. *)
Definition spawned (r : Random) (s : State) : Object3D :=
  last (obstacles (spawnObstacle r s)) (player s).

(** The category the type draw selects. *)
Definition drawnCategory (r : Random) : Category :=
  if typeDraw r <? dec 7 1 then Car
  else if typeDraw r <? dec 85 2 then Barrier
  else Rocket.

(** The statement that extents are specific to the category: obstacles of
    different categories get different extents. *)
Definition extentsByCategory : Prop :=
  forall (r1 r2 : Random) (s : State),
    category (userData (spawned r1 s)) <> category (userData (spawned r2 s))
    -> (width (userData (spawned r1 s)), height (userData (spawned r1 s)))
       <> (width (userData (spawned r2 s)),
           height (userData (spawned r2 s))).

(** ** Scenery *)

Definition sceneryOf (s : State)
  : list RoadItem * list RoadItem * list Tree * list RoadItem :=
  (roadSegments s, roadStripes s, trees s, buildings s).

(** The statement that every recycling adds [roadLength]: for each kind of
    scenery, an entity that the loop recycles ends at the [z] it had when
    the test fired plus [roadLength]. *)
Definition recyclingAddsRoadLength : Prop :=
  (forall (margin d : number) (it : RoadItem),
      (itemZ it - d <? cameraDistance - margin) = true ->
      itemZ (scrollItem margin d it) = (itemZ it - d) + roadLength)
  /\ (forall (d : number) (t : Tree),
         (trunkZ t - d <? cameraDistance - ofZ 20) = true ->
         trunkZ (scrollTree d t) = (trunkZ t - d) + roadLength)
  /\ (forall (d : number) (b : RoadItem),
         (meshZ b - d <? cameraDistance - ofZ 20) = true ->
         meshZ (scrollBuilding d b) = (meshZ b - d) + roadLength).

(** What a frame does to a road segment or stripe, to a tree and to a
    building, [z] being the coordinate once scrolled by [d]. *)
Definition itemScrolled (margin d : number) (old new : RoadItem) : Prop :=
  let z := itemZ old - d in
  if z <? cameraDistance - margin
  then itemZ new = z + roadLength
       /\ meshZ new = (meshZ old - d) + roadLength
  else itemZ new = z /\ meshZ new = meshZ old - d.

Definition treeScrolled (d : number) (old new : Tree) : Prop :=
  let z := trunkZ old - d in
  if z <? cameraDistance - ofZ 20
  then trunkZ new = z + (roadLength + (cameraDistance - z))
       /\ foliageZ new
          = (foliageZ old - d) + (roadLength + (cameraDistance - z))
  else trunkZ new = z /\ foliageZ new = foliageZ old - d.

Definition buildingScrolled (d : number) (old new : RoadItem) : Prop :=
  let z := meshZ old - d in
  if z <? cameraDistance - ofZ 20
  then meshZ new = z + (roadLength + (cameraDistance - z))
  else meshZ new = z.

(** ** The spawn clock *)

(** The two clock readings the gate compares. *)
Definition clockOf (s : State) : number * number :=
  (elapsedTime s, lastObstacleTime s).

(** The gate as [updateGame] evaluates it in a running frame: on the
    advanced clock and the updated speed. *)
Definition frameFires (deltaTime : number) (s : State) : bool :=
  (elapsedTime s + deltaTime) - lastObstacleTime s
  >? spawnThreshold (nextSpeed (speed s)).

(** The obstacles still on the road once the frame has moved them. *)
Definition frameRoad (deltaTime : number) (s : State) : list Object3D :=
  moveObstacles (frameDistance deltaTime s)
    (obstacles
       (beforeScroll deltaTime
          (set_elapsedTime (elapsedTime s + deltaTime) s))).

(** Whether the frame added an obstacle to those left on the road. *)
Definition frameSpawns (deltaTime : number) (r : Random) (s : State)
  : bool :=
  Nat.eqb (length (obstacles (updateGame deltaTime r s)))
          (S (length (frameRoad deltaTime s))).

(** The gate in the words of the specification: the same formula with
    [minInterval = obstacleInterval - 0.5]. *)
Definition minIntervalAsStated : number := obstacleInterval - dec 5 1.

Definition thresholdAsStated (v : number) : number :=
  obstacleInterval
  - (v / maxSpeed) * (obstacleInterval - minIntervalAsStated).

Definition spawnsAsStated : Prop :=
  forall (deltaTime : number) (r : Random) (s : State),
    isPaused s = false ->
    frameSpawns deltaTime r s
    = ((elapsedTime s + deltaTime) - lastObstacleTime s
       >? thresholdAsStated (nextSpeed (speed s))).

(** ** Jump variables *)

(** The jump variables, and the jump block of [updateGame] as it acts on
    them. *)
Definition jumpOf (s : State) : bool * number * number :=
  (isJumping s, jumpHeight s, jumpVelocity s).

Definition jumpStep (j : bool * number * number) : bool * number * number :=
  let '(jumping, h, v) := j in
  if jumping then
    let h := h + v in
    let v := v - jumpGravity in
    let '(h, v) := if h >? maxJumpHeight then (maxJumpHeight, ofZ 0)
                   else (h, v) in
    if h <=? ofZ 0 then (false, ofZ 0, ofZ 0) else (true, h, v)
  else (false, h, v).

(** The jump variables right after take-off, the number of frames of the
    arc, and what it means to be in the air. *)
Definition takeOff : bool * number * number :=
  (true, ofZ 0, jumpInitialVelocity).

Definition arcFrames : nat := 34.

Definition airborne (j : bool * number * number) : bool :=
  let '(jumping, h, _) := j in jumping && (h >? ofZ 0).

(** ** Awards *)

(** The award [updateScore] records for an obstacle, and what the loop
    does to the obstacle. *)
Definition awardOf (playerZ : number) (o : Object3D) : Award :=
  mkAward (uid o) (category (userData o)) (posZ (position o)) playerZ.

Definition credit (playerZ : number) (o : Object3D) : Object3D :=
  if passes playerZ o then set_overtaken (Some true) o else o.

Definition addBonus (sc : number) (_ : Award) : number := sc + ofZ 100.

Definition isOvertaken (o : Object3D) : Prop :=
  overtaken (userData o) = Some true.

(** An award went to a car or a rocket that was behind the player. *)
Definition awardOk (a : Award) : Prop :=
  (awardCategory a = Some Car \/ awardCategory a = Some Rocket)
  /\ (awardZ a <? awardPlayerZ a) = true.

(** ** Identity of obstacles and the history of awards *)

(** The part of the state the overtake bookkeeping lives in. *)
Definition World : Type := list Object3D * nat * list Award.

Definition worldOf (s : State) : World :=
  (obstacles s, nextId s, overtakeLog s).

(** What every reachable state satisfies: the live obstacles are distinct
    objects, older than [nextId]; so are the obstacles of the history;
    no obstacle occurs twice in the history; a live obstacle that occurs
    in the history carries the flag; every award was deserved. *)
Definition Inv (w : World) : Prop :=
  let '(obs, next, log) := w in
  NoDup (map uid obs)
  /\ Forall (fun o => (uid o < next)%nat) obs
  /\ Forall (fun a => (awardUid a < next)%nat) log
  /\ NoDup (map awardUid log)
  /\ Forall (fun o => In (uid o) (map awardUid log) -> isOvertaken o) obs
  /\ Forall awardOk log.

(** [descends next l l']: every obstacle of [l'] is either younger than
    [next] or an obstacle of [l] that has kept its flag if it had it. *)
Definition descends (next : nat) (l l' : list Object3D) : Prop :=
  forall o', In o' l' ->
    (next <= uid o')%nat
    \/ exists o, In o l /\ uid o = uid o' /\ (isOvertaken o -> isOvertaken o').

(** One stage of the program, on worlds: it keeps the invariant, lets the
    obstacles descend and does not take identities back. *)
Definition evolves (w w' : World) : Prop :=
  Inv w ->
  Inv w'
  /\ descends (snd (fst w)) (fst (fst w)) (fst (fst w'))
  /\ (snd (fst w) <= snd (fst w'))%nat.

(** Obstacles taken out, the others keeping identity and [userData]. *)
Inductive thinned : list Object3D -> list Object3D -> Prop :=
| thinned_nil : thinned [] []
| thinned_drop o l l' : thinned l l' -> thinned (o :: l) l'
| thinned_keep o o' l l' :
    uid o' = uid o -> userData o' = userData o ->
    thinned l l' -> thinned (o :: l) (o' :: l').

(** * More of the script *)

(** ** The obstacle loop on the array *)

(** [l[i] = o]. *)
Fixpoint replaceAt (i : nat) (o : Object3D) (l : list Object3D)
  : list Object3D :=
  match l, i with
  | [], _ => []
  | _ :: rest, O => o :: rest
  | o' :: rest, S j => o' :: replaceAt j o rest
  end.

(** The loop [for (let i = obstacles.length - 1; i >= 0; i--)] of
    [updateGame] as the script runs it, on the array itself: the body for
    index [i], which moves [obstacles[i]] and splices it out once behind
    the camera, then the indices below. *)
Fixpoint moveLoop (moveDistance : number) (i : nat) (l : list Object3D)
  : list Object3D :=
  let l' :=
    match nth_error l i with
    | Some obstacle =>
        let obstacle' :=
          setZ (posZ (position obstacle) - moveDistance) obstacle in
        if posZ (position obstacle') <? cameraDistance
        then removeAt i l
        else replaceAt i obstacle' l
    | None => l
    end in
  match i with
  | O => l'
  | S j => moveLoop moveDistance j l'
  end.

Definition moveObstaclesInPlace (moveDistance : number)
           (l : list Object3D) : list Object3D :=
  match length l with
  | O => l
  | S n => moveLoop moveDistance n l
  end.

(** ** The road *)

(** [segmentCount = roadLength / segmentLength]. *)
Definition segmentCount : number := roadLength / segmentLength.

(** The entry [createRoadSegment(z)] pushes on [roadSegments]. *)
Definition createRoadSegment (z : number) : RoadItem :=
  mkRoadItem (z + segmentLength / ofZ 2) z.

(** The loop of [createRoad]:
    [for (let i = 0; i < segmentCount; i++) createRoadSegment(i *
    segmentLength)], from the value [i] on, for at most [fuel] turns. *)
Fixpoint roadSegmentsFrom (fuel : nat) (i : number) : list RoadItem :=
  match fuel with
  | O => []
  | S fuel' =>
      if i <? segmentCount
      then createRoadSegment (i * segmentLength)
           :: roadSegmentsFrom fuel' (i + ofZ 1)
      else []
  end.

(** The loop of [createRoadStripes]:
    [for (let z = 0; z < roadLength; z += stripeSpacing)], from the value
    [z] on, for at most [fuel] turns; each stripe mesh is placed at [z] and
    pushed with that [z]. *)
Fixpoint roadStripesFrom (fuel : nat) (z : number) : list RoadItem :=
  match fuel with
  | O => []
  | S fuel' =>
      if z <? roadLength
      then mkRoadItem z z :: roadStripesFrom fuel' (z + ofZ 20)
      else []
  end.

(** The entry [createTree(x, z)] pushes on [trees], and likewise
    [createChargingStation(x, z)]: both meshes stand at [z]. *)
Definition createTree (z : number) : Tree := mkTree z z z.

(** ** High scores *)

(** An entry [{ name, score }] of [highScores]; the scores are the
    integers [Math.floor] leaves. *)
Record HighScore : Type := mkHighScore {
  entryName : String.string;
  entryScore : Z
}.

(** [highScores.sort((a, b) => b.score - a.score)].  [Array.prototype.sort]
    is stable, and a stable sort by a consistent comparator has a single
    possible result; it is computed here by insertion: an entry goes in
    front of the first entry that does not score more. *)
Fixpoint insertByScore (e : HighScore) (l : list HighScore)
  : list HighScore :=
  match l with
  | [] => [e]
  | y :: rest =>
      if (entryScore y <=? entryScore e)%Z then e :: l
      else y :: insertByScore e rest
  end.

Definition sortByScore (l : list HighScore) : list HighScore :=
  fold_right insertByScore [] l.

(** [saveHighScore(name, score)] on the list [highScores]: push, sort,
    keep the top five.  [None] stands for a score that is NaN or infinite,
    which [Math.floor] returns as it is and for which the comparator no
    longer orders the list. *)
Definition saveHighScore (name : String.string) (sc : number)
           (highScores : list HighScore) : option (list HighScore) :=
  match Math_floor sc with
  | Some n =>
      let highScores := highScores ++ [mkHighScore name n] in
      let highScores := sortByScore highScores in
      Some (if (5 <? length highScores)%nat then firstn 5 highScores
            else highScores)
  | None => None
  end.

(** ** The smoke effect *)

(** A smoke particle: the mesh's [position], [scale] and the opacity of its
    material. *)
Record Particle : Type := mkParticle {
  particlePosition : Vector3;
  particleScale : Vector3;
  particleOpacity : number
}.

(** The globals of the smoke effect. *)
Record Smoke : Type := mkSmoke {
  smokeParticles : list Particle;
  lastSmokeTime : number;
  smokeActive : bool;
  smokeStartTime : number;
  smokeDuration : number
}.

Definition smokeInterval : number := dec 5 2.

Definition initialSmoke : Smoke :=
  mkSmoke [] (ofZ 0) false (ofZ 0) (ofZ 0).

(** [createSmokeParticle()]: a particle behind the car, pushed on
    [smokeParticles]; beyond 50 particles the oldest is shifted out.
    [spreadDraw] and [heightDraw] are its second and third
    [Math.random()] (the first sizes the sphere). *)
Definition createSmokeParticle (spreadDraw heightDraw : number)
           (p : Object3D) (fx : Smoke) : Smoke :=
  let smoke :=
    mkParticle
      (mkVector3 (posX (position p) + (spreadDraw * ofZ 2 - ofZ 1))
                 (posY (position p) + dec 5 1 + (heightDraw * dec 5 1))
                 (posZ (position p) - ofZ 3))
      (mkVector3 (ofZ 1) (ofZ 1) (ofZ 1))
      (dec 7 1) in
  let particles := smokeParticles fx ++ [smoke] in
  let particles :=
    if (50 <? length particles)%nat then tl particles else particles in
  mkSmoke particles (lastSmokeTime fx) (smokeActive fx)
          (smokeStartTime fx) (smokeDuration fx).

(** The body of the loop of [updateSmokeParticles] for one particle:
    rise, drift, grow, fade. *)
Definition ageParticle (deltaTime driftDraw : number) (q : Particle)
  : Particle :=
  let pos := particlePosition q in
  let sc := particleScale q in
  let k := ofZ 1 + deltaTime * dec 5 1 in
  mkParticle
    (mkVector3 (posX pos + (driftDraw - dec 5 1) * deltaTime)
               (posY pos + deltaTime * ofZ 2)
               (posZ pos))
    (mkVector3 (posX sc * k) (posY sc * k) (posZ sc * k))
    (particleOpacity q - deltaTime * dec 8 1).

(** The backward loop of [updateSmokeParticles] over the array, [i] being
    the index of the head of [l]; [drift i] is the [Math.random()] drawn
    when index [i] is visited.  A particle is spliced out once fully
    transparent. *)
Fixpoint ageParticles (deltaTime : number) (drift : nat -> number)
         (i : nat) (l : list Particle) : list Particle :=
  match l with
  | [] => []
  | q :: rest =>
      let rest' := ageParticles deltaTime drift (S i) rest in
      let q' := ageParticle deltaTime (drift i) q in
      if particleOpacity q' <=? ofZ 0 then rest' else q' :: rest'
  end.

(** [updateSmokeParticles(deltaTime)], at the time [now = elapsedTime]. *)
Definition updateSmokeParticles (deltaTime : number) (drift : nat -> number)
           (now : number) (fx : Smoke) : Smoke :=
  let particles := ageParticles deltaTime drift 0 (smokeParticles fx) in
  let active :=
    if smokeActive fx && (now - smokeStartTime fx >? smokeDuration fx)
    then false else smokeActive fx in
  mkSmoke particles (lastSmokeTime fx) active (smokeStartTime fx)
          (smokeDuration fx).

(** "Handle smoke effect" and "Update existing smoke particles" in
    [updateGame], for the state [s] the frame has reached there. *)
Definition smokeFrame (deltaTime spreadDraw heightDraw : number)
           (drift : nat -> number) (s : State) (fx : Smoke) : Smoke :=
  let fx :=
    if smokeActive fx && (elapsedTime s - lastSmokeTime fx >? smokeInterval)
    then
      let fx := createSmokeParticle spreadDraw heightDraw (player s) fx in
      mkSmoke (smokeParticles fx) (elapsedTime s) (smokeActive fx)
              (smokeStartTime fx) (smokeDuration fx)
    else fx in
  updateSmokeParticles deltaTime drift (elapsedTime s) fx.

(** The ['s'] key of [onKeyDown], once past the pause tests:
    [durationDraw] is its [Math.random()]. *)
Definition smokeKey (durationDraw : number) (s : State) (fx : Smoke)
  : Smoke :=
  mkSmoke (smokeParticles fx) (lastSmokeTime fx) true (elapsedTime s)
          (durationDraw * ofZ 10).

(** * Vocabulary of the further statements *)

(** The flags and counters of the session. *)
Definition statusOf (s : State) : Z * bool * bool * bool * nat :=
  (lives s, gameActive s, gameOverScreen s, isPaused s, lane s).

(** What a collision does to them. *)
Definition statusHit (st : Z * bool * bool * bool * nat)
  : Z * bool * bool * bool * nat :=
  let '(l, active, over, _, ln) := st in
  if (l - 1 <=? 0)%Z then ((l - 1)%Z, false, true, true, ln)
  else ((l - 1)%Z, active, over, true, ln).

(** The lives a session can show. *)
Definition livesOk (s : State) : Prop :=
  (0 <= lives s <= 3)%Z
  /\ (gameActive s = true -> (1 <= lives s)%Z)
  /\ (gameActive s = false -> gameOverScreen s = true -> lives s = 0%Z).

(** The jump variables a session can show: those of the first [arcFrames]
    frames of a jump, the last being the rest on the ground. *)
Definition onArc (j : bool * number * number) : Prop :=
  exists k, (k <= arcFrames)%nat /\ j = Nat.iter k jumpStep takeOff.

Definition arcOk (j : bool * number * number) : bool :=
  let '(jumping, h, v) := j in
  (ofZ 0 <=? h) && (h <=? maxJumpHeight)
  && (jumping
      || (match h, v with
          | S754_zero false, S754_zero false => true
          | _, _ => false
          end)).

(** An obstacle that is not behind the camera. *)
Definition notBehind (o : Object3D) : Prop :=
  (posZ (position o) <? cameraDistance) = false.

(** The order of the board: no entry below scores more than one above. *)
Definition ranksAbove (a b : HighScore) : Prop :=
  (entryScore b <= entryScore a)%Z.

Definition sampleBoard : list HighScore :=
  [ mkHighScore String.EmptyString 900; mkHighScore String.EmptyString 700;
    mkHighScore String.EmptyString 700; mkHighScore String.EmptyString 300;
    mkHighScore String.EmptyString 100 ].

(** The loops of [createRoad] and [createRoadStripes] leave by their own
    test within [n] turns from [i]. *)
Fixpoint segmentsDoneWithin (n : nat) (i : number) : bool :=
  if i <? segmentCount
  then match n with
       | O => false
       | S n' => segmentsDoneWithin n' (i + ofZ 1)
       end
  else true.

Fixpoint stripesDoneWithin (n : nat) (z : number) : bool :=
  if z <? roadLength
  then match n with
       | O => false
       | S n' => stripesDoneWithin n' (z + ofZ 20)
       end
  else true.

(** Scenery whose meshes stand where they should: a stripe's mesh at the
    stripe's [z], a tree's foliage at its trunk. *)
Definition stripeAligned (it : RoadItem) : Prop := meshZ it = itemZ it.
Definition treeAligned (t : Tree) : Prop := foliageZ t = trunkZ t.

Definition sceneryOk (n1 n2 n3 n4 : nat) (s : State) : Prop :=
  Forall stripeAligned (roadStripes s)
  /\ Forall treeAligned (trees s)
  /\ (length (roadSegments s), length (roadStripes s),
      length (trees s), length (buildings s)) = (n1, n2, n3, n4).

(** What can happen to the smoke: the smoke part of a frame, for the
    state the game has reached, and the ['s'] key. *)
Inductive SmokeEvent : Type :=
| SmokeFrame (deltaTime spreadDraw heightDraw : number)
             (drift : nat -> number) (s : State)
| SmokeKey (durationDraw : number) (s : State).

Definition smokeStep (fx : Smoke) (e : SmokeEvent) : Smoke :=
  match e with
  | SmokeFrame deltaTime spreadDraw heightDraw drift s =>
      smokeFrame deltaTime spreadDraw heightDraw drift s fx
  | SmokeKey durationDraw s => smokeKey durationDraw s fx
  end.

Definition samplePuff : Particle :=
  mkParticle origin (mkVector3 (ofZ 1) (ofZ 1) (ofZ 1)) (dec 7 1).

(** * Properties *)

(** ** Proof tools *)

(** Case analysis on the tests of a block. *)
Ltac split_ifs :=
  repeat match goal with
         | |- context [if ?b then _ else _] => destruct b
         | |- context [match ?x with Some _ => _ | None => _ end] =>
             destruct x
         end.

(** A block leaves a field alone: unfold, split the cases, compare. *)
Ltac stage_frame :=
  cbn; split_ifs; cbn;
  try match goal with
      | |- context [overtakeLoop ?a ?b ?c ?d ?e] =>
          destruct (overtakeLoop a b c d e) as [[[? ?] ?] ?]
      end;
  reflexivity.

Ltac jump_fields :=
  cbn [jumpHeight jumpVelocity isJumping set_jumpHeight set_jumpVelocity
       set_isJumping set_player].

(** ** Frames while paused *)

Lemma updateGame_frozen (deltaTime : number) (r : Random) (s : State) :
  isPaused s = true ->
  updateGame deltaTime r s = set_elapsedTime (elapsedTime s + deltaTime) s.
Proof.
  intros Hp. unfold updateGame. cbn [isPaused set_elapsedTime].
  now rewrite Hp.
Qed.

(** C10. While [isPaused] is set, a frame update adds [deltaTime] to
    [elapsedTime] and changes nothing else: the resulting state is the old
    one with that single assignment, so speed, score, lives, lane,
    overtaken count, jump state, player position, obstacles and scenery
    are as before; [lastObstacleTime] stays put while [elapsedTime] moves
    on, so the time since the last spawn keeps growing. *)
Theorem updateGame_paused (deltaTime : number) (r : Random) (s : State) :
  isPaused s = true ->
  updateGame deltaTime r s = set_elapsedTime (elapsedTime s + deltaTime) s
  /\ elapsedTime (updateGame deltaTime r s) = elapsedTime s + deltaTime
  /\ lastObstacleTime (updateGame deltaTime r s) = lastObstacleTime s.
Proof.
  intros Hp. rewrite (updateGame_frozen deltaTime r s Hp). repeat split.
Qed.

(** A paused game with a car on the road: a frame of 16 ms. *)
Lemma updateGame_paused_witness :
  let s := set_isPaused true sampleRunning in
  isPaused s = true
  /\ elapsedTime (updateGame (dec 16 3) centreDraws s)
     = elapsedTime s + dec 16 3.
Proof.
  split; [reflexivity|].
  apply (updateGame_paused (dec 16 3) centreDraws
           (set_isPaused true sampleRunning)).
  reflexivity.
Defined.

(** ** Jump immunity *)

(** C3. While the vehicle is jumping and [jumpHeight] exceeds 2, the
    collision check returns the state unchanged, whatever obstacles are
    live and whatever their category: none is removed, [lives] is not
    decremented and the session is the same. *)
Theorem checkCollisions_jumping (s : State) :
  isJumping s = true ->
  (jumpHeight s >? ofZ 2) = true ->
  checkCollisions s = s
  /\ obstacles (checkCollisions s) = obstacles s
  /\ lives (checkCollisions s) = lives s
  /\ session (checkCollisions s) = session s.
Proof.
  intros Hj Hh.
  assert (E : checkCollisions s = s).
  { unfold checkCollisions. now rewrite Hj, Hh. }
  rewrite E. repeat split.
Qed.

(** The car overlaps the player, yet the check leaves the state alone. *)
Lemma checkCollisions_jumping_witness :
  overlaps (player sampleJumping) carAhead = true
  /\ checkCollisions sampleJumping = sampleJumping.
Proof.
  split; [vm_compute; reflexivity|].
  apply (checkCollisions_jumping sampleJumping); vm_compute; reflexivity.
Defined.

(** ** Collisions *)

(** Splicing out the index of an object that is in the array, where no two
    entries are the same object, removes that entry and no other. *)
Lemma splice1_indexOf (o : Object3D) (l : list Object3D) :
  In o l -> NoDup (map uid l) ->
  exists before after,
    l = before ++ o :: after
    /\ splice1 (indexOf o l) l = before ++ after.
Proof.
  induction l as [|o' rest IH]; cbn; intros Hin Hnd; [contradiction|].
  inversion Hnd as [|? ? Hfresh Hrest]; subst.
  destruct (Nat.eqb_spec (uid o') (uid o)) as [E|N].
  - destruct Hin as [->|Hin].
    + exists [], rest. now split.
    + exfalso. apply Hfresh. rewrite E. now apply in_map.
  - destruct Hin as [->|Hin]; [congruence|].
    destruct (IH Hin Hrest) as (before & after & Hl & Hs).
    exists (o' :: before), after. split.
    + cbn. now rewrite <- Hl.
    + destruct (indexOf o rest) as [i|] eqn:Ei.
      * cbn in *. now rewrite Hs.
      * exfalso. subst rest. clear - Ei N.
        induction before as [|b before IHb]; cbn in Ei.
        -- now rewrite Nat.eqb_refl in Ei.
        -- destruct (Nat.eqb (uid b) (uid o)); [discriminate|].
           destruct (indexOf o (before ++ o :: after)); [discriminate|].
           now apply IHb.
Qed.

(** C5. A collision processed while [lives] is 1: the colliding obstacle
    is taken out of [obstacles] (the others stay, in order), [lives]
    becomes 0, and the session is GameOver, not Paused. *)
Theorem handleCollision_last_life (obstacle : Object3D) (s : State) :
  lives s = 1%Z ->
  In obstacle (obstacles s) ->
  NoDup (map uid (obstacles s)) ->
  (exists before after,
      obstacles s = before ++ obstacle :: after
      /\ obstacles (handleCollision obstacle s) = before ++ after)
  /\ lives (handleCollision obstacle s) = 0%Z
  /\ gameActive (handleCollision obstacle s) = false
  /\ session (handleCollision obstacle s) = GameOver
  /\ session (handleCollision obstacle s) <> Paused.
Proof.
  intros Hl Hin Hnd.
  unfold handleCollision.
  cbn [lives set_lives set_isPaused set_obstacles].
  rewrite Hl. cbn [Z.sub Z.leb Z.compare Z.add Z.opp Z.pos_sub].
  repeat split; try discriminate.
  destruct (splice1_indexOf obstacle (obstacles s) Hin Hnd)
    as (before & after & E1 & E2).
  exists before, after. split; [exact E1|exact E2].
Qed.

(** The collision that [checkCollisions] finds in [sampleRunning] on the
    last life. *)
Lemma handleCollision_last_life_witness :
  let s := set_lives 1%Z sampleRunning in
  find (overlaps (player s)) (obstacles s) = Some carAhead
  /\ obstacles (handleCollision carAhead s) = []
  /\ session (handleCollision carAhead s) = GameOver.
Proof.
  split; [vm_compute; reflexivity|].
  pose proof (handleCollision_last_life carAhead
                (set_lives 1%Z sampleRunning)) as H.
  destruct H as [_ (_ & _ & G & _)].
  - reflexivity.
  - left; reflexivity.
  - repeat constructor. intros [].
  - split; [vm_compute; reflexivity|exact G].
Defined.

(** ** Facts about JavaScript numbers *)

Section Rounding.

Variables prec emax : Z.

Lemma shr_1_nonneg (mrs : shr_record) :
  (0 <= shr_m mrs)%Z -> (0 <= shr_m (shr_1 mrs))%Z.
Proof.
  destruct mrs as [m r s]; cbn. destruct m as [|p|p]; cbn; try lia.
  destruct p; cbn; lia.
Qed.

Lemma iter_shr_1_nonneg (p : positive) : forall mrs,
  (0 <= shr_m mrs)%Z -> (0 <= shr_m (iter_pos shr_1 p mrs))%Z.
Proof.
  induction p as [p IH|p IH|]; cbn; intros mrs H.
  - apply IH, IH, shr_1_nonneg, H.
  - apply IH, IH, H.
  - apply shr_1_nonneg, H.
Qed.

Lemma shr_fexp_nonneg (m e : Z) (l : location) :
  (0 <= m)%Z -> (0 <= shr_m (fst (shr_fexp prec emax m e l)))%Z.
Proof.
  intros H. unfold shr_fexp, shr.
  assert (H0 : (0 <= shr_m (shr_record_of_loc m l))%Z).
  { destruct l as [|[]]; exact H. }
  destruct (fexp prec emax (Zdigits2 m + e) - e)%Z; cbn; auto.
  now apply iter_shr_1_nonneg.
Qed.

Lemma round_nearest_even_nonneg (m : Z) (l : location) :
  (0 <= m)%Z -> (0 <= round_nearest_even m l)%Z.
Proof.
  intros H. destruct l as [|[]]; cbn; try lia. destruct (Z.even m); lia.
Qed.

(** Rounding a non-negative mantissa gives a zero, a finite number or an
    infinity. *)
Lemma binary_round_aux_not_nan (sx : bool) (mx ex : Z) (lx : location) :
  (0 <= mx)%Z -> binary_round_aux prec emax sx mx ex lx <> S754_nan.
Proof.
  intros H. unfold binary_round_aux.
  pose proof (shr_fexp_nonneg mx ex lx H) as H1.
  destruct (shr_fexp prec emax mx ex lx) as [mrs' e']. cbn in H1.
  pose proof (shr_fexp_nonneg
                (round_nearest_even (shr_m mrs') (loc_of_shr_record mrs'))
                e' loc_Exact (round_nearest_even_nonneg _ _ H1)) as H2.
  destruct (shr_fexp prec emax _ e' loc_Exact) as [mrs'' e'']. cbn in H2.
  destruct (shr_m mrs''); try lia; try discriminate.
  destruct (e'' <=? emax - prec)%Z; discriminate.
Qed.

Lemma binary_normalize_not_nan (m e : Z) (sz : bool) :
  binary_normalize prec emax m e sz <> S754_nan.
Proof.
  destruct m; cbn; try discriminate; unfold binary_round;
    destruct (shl_align _ _ _); apply binary_round_aux_not_nan; lia.
Qed.

End Rounding.

Lemma isNaN_false (x : number) : x <> S754_nan -> isNaN x = false.
Proof. destruct x; cbn; congruence. Qed.

(** Adding or multiplying by a finite non-zero number never produces NaN
    from a number. *)
Lemma add_finite_not_nan (x y : number) :
  isNaN x = false -> isFinite y = true -> isNaN (x + y) = false.
Proof.
  destruct x as [sx|sx| |sx mx ex], y as [sy|sy| |sy my ey];
    cbn; try discriminate; try reflexivity; intros _ _.
  apply isNaN_false, binary_normalize_not_nan.
Qed.

Lemma mul_finite_not_nan (x y : number) :
  isNaN x = false -> isFinite y = true -> isNaN (x * y) = false.
Proof.
  destruct x as [sx|sx| |sx mx ex], y as [sy|sy| |sy my ey];
    cbn; try discriminate; try reflexivity; intros _ _.
  apply isNaN_false, binary_round_aux_not_nan. lia.
Qed.

Lemma SFcompare_antisym (x y : number) :
  SFcompare y x = option_map CompOpp (SFcompare x y).
Proof.
  destruct x as [sx|sx| |sx mx ex], y as [sy|sy| |sy my ey]; cbn;
    try reflexivity;
    try (destruct sx; reflexivity); try (destruct sy; reflexivity);
    try (destruct sx, sy; reflexivity).
  destruct sx, sy; cbn; try reflexivity; rewrite (Z.compare_antisym ex ey);
    destruct (ex ?= ey)%Z eqn:E; cbn; try reflexivity; f_equal;
    rewrite ?CompOpp_involutive.
  - exact (Pos.compare_cont_antisym my mx Eq).
  - exact (eq_sym (Pos.compare_cont_antisym mx my Eq)).
Qed.

Lemma SFcompare_numbers (x y : number) :
  isNaN x = false -> isNaN y = false -> exists c, SFcompare x y = Some c.
Proof.
  destruct x, y; cbn; try discriminate; intros _ _; eexists; reflexivity.
Qed.

Lemma leb_not_nan (x y : number) : (x <=? y) = true -> isNaN y = false.
Proof.
  unfold JS.leb, SFleb. destruct x, y; cbn; try discriminate; reflexivity.
Qed.

Lemma ltb_leb (x y : number) : (x <? y) = true -> (x <=? y) = true.
Proof.
  unfold JS.ltb, JS.leb, SFltb, SFleb.
  destruct (SFcompare x y) as [[]|]; congruence.
Qed.

(** Of two numbers, one is below the other or they compare equal. *)
Lemma not_ltb_leb (x y : number) :
  isNaN x = false -> isNaN y = false ->
  (x <? y) = false -> (y <? x) = false -> (y <=? x) = true.
Proof.
  unfold JS.ltb, JS.leb, SFltb, SFleb. intros Hx Hy.
  rewrite (SFcompare_antisym x y).
  destruct (SFcompare_numbers x y Hx Hy) as [c ->]. cbn.
  destruct c; cbn; congruence.
Qed.

Lemma Math_min_maxSpeed (x : number) :
  isNaN x = false ->
  isNaN (Math_min maxSpeed x) = false
  /\ (Math_min maxSpeed x <=? maxSpeed) = true.
Proof.
  intros Hx. unfold Math_min. rewrite Hx.
  change (isNaN maxSpeed) with false. cbn [orb].
  destruct (maxSpeed <? x) eqn:E1; [split; reflexivity|].
  destruct (x <? maxSpeed) eqn:E2.
  - split; [exact Hx|now apply ltb_leb].
  - change (isNegZero maxSpeed) with false. cbn iota.
    split; [exact Hx|]. now apply not_ltb_leb.
Qed.

Lemma clampSpeed_range (x : number) :
  isNaN x = false -> inSpeedRange (clampSpeed x) = true.
Proof.
  intros Hx. destruct (Math_min_maxSpeed x Hx) as [Hn Hle].
  unfold clampSpeed, Math_max. rewrite Hn.
  change (isNaN (ofZ 0)) with false. cbn [orb].
  unfold inSpeedRange.
  destruct (ofZ 0 <? Math_min maxSpeed x) eqn:E1.
  - rewrite Hle, (ltb_leb _ _ E1). reflexivity.
  - destruct (Math_min maxSpeed x <? ofZ 0); reflexivity.
Qed.

(** ** The speed clamp *)

Lemma speed_updateSpeed (s : State) :
  speed (updateSpeed s) = nextSpeed (speed s).
Proof.
  unfold updateSpeed, nextSpeed, clampSpeed. cbv zeta.
  destruct (speed s <? maxSpeed * dec 4 1); reflexivity.
Qed.

Lemma speed_jumpPhysics (s : State) : speed (jumpPhysics s) = speed s.
Proof. unfold jumpPhysics. cbn. split_ifs; reflexivity. Qed.

Lemma speed_steer (s : State) : speed (steer s) = speed s.
Proof. reflexivity. Qed.

Lemma speed_checkCollisions (s : State) :
  speed (checkCollisions s) = speed s.
Proof.
  unfold checkCollisions, handleCollision, gameOver. cbn.
  split_ifs; reflexivity.
Qed.

Lemma speed_updateScore (deltaTime : number) (s : State) :
  speed (updateScore deltaTime s) = speed s.
Proof.
  unfold updateScore.
  destruct (overtakeLoop _ _ _ _ _) as [[[obs sc] n] log]. reflexivity.
Qed.

Lemma speed_scrollWorld (moveDistance : number) (r : Random) (s : State) :
  speed (scrollWorld moveDistance r s) = speed s.
Proof.
  unfold scrollWorld, scrollScenery, spawnCheck, spawnObstacle. cbn.
  split_ifs; reflexivity.
Qed.

(** The speed before the world scrolls, which fixes [moveDistance]. *)
Lemma speed_before_scroll (deltaTime : number) (s : State) :
  speed (beforeScroll deltaTime s) = nextSpeed (speed s).
Proof.
  unfold beforeScroll.
  now rewrite speed_updateScore, speed_checkCollisions, speed_steer,
    speed_jumpPhysics, speed_updateSpeed.
Qed.

Lemma speed_updateGame (deltaTime : number) (r : Random) (s : State) :
  isPaused s = false ->
  speed (updateGame deltaTime r s) = nextSpeed (speed s).
Proof.
  intros Hp. unfold updateGame.
  cbn [isPaused set_elapsedTime]. rewrite Hp.
  unfold simulate. cbv zeta.
  rewrite speed_scrollWorld, speed_before_scroll. reflexivity.
Qed.

(** C2. A frame update of a running session takes a speed in
    [[0, maxSpeed]] to a speed in [[0, maxSpeed]], for every [deltaTime]
    (non-negative or not). *)
Theorem updateGame_speed_clamped
        (deltaTime : number) (r : Random) (s : State) :
  isPaused s = false ->
  inSpeedRange (speed s) = true ->
  inSpeedRange (speed (updateGame deltaTime r s)) = true.
Proof.
  intros Hp Hr. rewrite (speed_updateGame deltaTime r s Hp).
  apply andb_prop in Hr. destruct Hr as [H0 _].
  apply leb_not_nan in H0.
  unfold nextSpeed. apply clampSpeed_range.
  apply mul_finite_not_nan; [|reflexivity].
  destruct (speed s <? maxSpeed * dec 4 1); [|exact H0].
  apply add_finite_not_nan; [exact H0|reflexivity].
Qed.

(** From a standstill, one frame of 16 ms leaves [2 * 0.95]. *)
Lemma updateGame_speed_clamped_witness :
  let s := sampleRunning in
  inSpeedRange (speed s) = true
  /\ speed (updateGame (dec 16 3) centreDraws s)
     = ofZ 2 * dec 95 2
  /\ inSpeedRange
       (speed (updateGame (dec 16 3) centreDraws s))
     = true.
Proof.
  split; [reflexivity|]. split; [vm_compute; reflexivity|].
  apply (updateGame_speed_clamped (dec 16 3) centreDraws sampleRunning);
    reflexivity.
Defined.

(** ** The spawner *)

Lemma spawnObstacle_obstacles (r : Random) (s : State) :
  obstacles (spawnObstacle r s) = obstacles s ++ [spawned r s].
Proof.
  unfold spawned, spawnObstacle.
  destruct (if typeDraw r <? dec 7 1 then _ else _) as [cat flag].
  cbn [obstacles set_obstacles set_nextId]. now rewrite last_last.
Qed.

(** C9, as stated, fails: a car (type draw 0.5) and a barrier (type draw
    0.75) are given the same extents. *)
Lemma spawnObstacle_same_extents : ~ extentsByCategory.
Proof.
  intros H.
  apply (H centreDraws (mkRandom (dec 5 1) (dec 75 2))
           sampleRunning).
  - vm_compute. discriminate.
  - vm_compute. reflexivity.
Qed.

(** C9, amended.  A spawn appends one obstacle to [obstacles].  Its
    extents are width 3 and depth 5 whatever its category; its [overtaken]
    flag is false for a car and for a rocket and left undefined for a
    barrier, so that it reads as not overtaken in every case; it stands at
    [z = roadLength / 2 = 1000], at height 1, and at the lateral offset of
    the lane [Math.floor(Math.random() * 3)] whenever that is a lane
    index. *)
Theorem spawnObstacle_spec (r : Random) (s : State) :
  let o := spawned r s in
  obstacles (spawnObstacle r s) = obstacles s ++ [o]
  /\ category (userData o) = Some (drawnCategory r)
  /\ width (userData o) = ofZ 3
  /\ height (userData o) = ofZ 5
  /\ overtaken (userData o)
     = match drawnCategory r with Barrier => None | _ => Some false end
  /\ notOvertaken o = true
  /\ posZ (position o) = roadLength / ofZ 2
  /\ roadLength / ofZ 2 = ofZ 1000
  /\ posY (position o) = ofZ 1
  /\ forall i : nat,
       Math_floor (laneDraw r * ofZ 3) = Some (Z.of_nat i) ->
       posX (position o) = lanePosition i.
Proof.
  cbv zeta. split; [apply spawnObstacle_obstacles|].
  unfold spawned, spawnObstacle, drawnCategory, notOvertaken.
  destruct (typeDraw r <? dec 7 1); [|destruct (typeDraw r <? dec 85 2)];
    cbn [obstacles set_obstacles set_nextId]; rewrite last_last;
    cbn [userData category width height overtaken position posX posY posZ];
    (repeat split; try reflexivity;
     intros i Hi; rewrite Hi;
     destruct (Z.ltb_spec (Z.of_nat i) 0); [lia|];
     now rewrite Nat2Z.id).
Qed.

(** The middle of the range of the lane draw selects the centre lane. *)
Lemma spawnObstacle_spec_witness :
  Math_floor (dec 5 1 * ofZ 3) = Some (Z.of_nat 1)
  /\ posX (position (spawned centreDraws sampleRunning))
     = lanePosition 1.
Proof.
  split; [vm_compute; reflexivity|].
  apply (spawnObstacle_spec centreDraws sampleRunning).
  vm_compute; reflexivity.
Defined.

(** ** Recycling of the scenery *)

Lemma Forall2_map_self {A B : Type} (P : A -> B -> Prop) (f : A -> B)
      (l : list A) :
  (forall a, P a (f a)) -> Forall2 P l (map f l).
Proof. intros H. induction l; cbn; constructor; auto. Qed.

Lemma sceneryOf_updateSpeed (s : State) :
  sceneryOf (updateSpeed s) = sceneryOf s.
Proof. unfold sceneryOf, updateSpeed. stage_frame. Qed.

Lemma sceneryOf_jumpPhysics (s : State) :
  sceneryOf (jumpPhysics s) = sceneryOf s.
Proof. unfold sceneryOf, jumpPhysics. stage_frame. Qed.

Lemma sceneryOf_steer (s : State) : sceneryOf (steer s) = sceneryOf s.
Proof. reflexivity. Qed.

Lemma sceneryOf_checkCollisions (s : State) :
  sceneryOf (checkCollisions s) = sceneryOf s.
Proof.
  unfold sceneryOf, checkCollisions, handleCollision, gameOver. stage_frame.
Qed.

Lemma sceneryOf_updateScore (deltaTime : number) (s : State) :
  sceneryOf (updateScore deltaTime s) = sceneryOf s.
Proof. unfold sceneryOf, updateScore. stage_frame. Qed.

Lemma sceneryOf_spawnCheck (r : Random) (s : State) :
  sceneryOf (spawnCheck r s) = sceneryOf s.
Proof. unfold sceneryOf, spawnCheck, spawnObstacle. stage_frame. Qed.

Lemma sceneryOf_before_scroll (deltaTime : number) (s : State) :
  sceneryOf (beforeScroll deltaTime s) = sceneryOf s.
Proof.
  unfold beforeScroll. rewrite sceneryOf_updateScore, sceneryOf_checkCollisions.
  now rewrite sceneryOf_steer, sceneryOf_jumpPhysics, sceneryOf_updateSpeed.
Qed.

Lemma sceneryOf_scrollWorld (d : number) (r : Random) (s : State) :
  sceneryOf (scrollWorld d r s)
  = (map (scrollItem (segmentLength / ofZ 2) d) (roadSegments s),
     map (scrollItem (ofZ 20) d) (roadStripes s),
     map (scrollTree d) (trees s),
     map (scrollBuilding d) (buildings s)).
Proof.
  unfold scrollWorld.
  set (s1 := set_obstacles _ s).
  pose proof (sceneryOf_spawnCheck r s1) as E.
  unfold sceneryOf in *. unfold scrollScenery.
  cbn [roadSegments roadStripes trees buildings set_roadSegments
       set_roadStripes set_trees set_buildings].
  injection E as -> -> -> ->. reflexivity.
Qed.

Lemma sceneryOf_updateGame (deltaTime : number) (r : Random) (s : State) :
  isPaused s = false ->
  sceneryOf (updateGame deltaTime r s)
  = (map (scrollItem (segmentLength / ofZ 2) (frameDistance deltaTime s))
         (roadSegments s),
     map (scrollItem (ofZ 20) (frameDistance deltaTime s)) (roadStripes s),
     map (scrollTree (frameDistance deltaTime s)) (trees s),
     map (scrollBuilding (frameDistance deltaTime s)) (buildings s)).
Proof.
  intros Hp. unfold updateGame.
  cbn [isPaused set_elapsedTime]. rewrite Hp.
  unfold simulate. cbv zeta.
  rewrite sceneryOf_scrollWorld, speed_before_scroll.
  pose proof (sceneryOf_before_scroll deltaTime
                (set_elapsedTime (elapsedTime s + deltaTime) s)) as E.
  unfold sceneryOf in E. injection E as -> -> -> ->. reflexivity.
Qed.

(** C1, as stated, fails for trees: a tree at [z = 0] scrolled by 40 is
    recycled at [z = -40] and put at 1985, which is [roadLength +
    cameraDistance], not at [-40 + roadLength = 1960]. *)
Lemma scrollTree_resets : ~ recyclingAddsRoadLength.
Proof.
  intros (_ & H & _).
  specialize (H (ofZ 40) (mkTree (ofZ 0) (ofZ 0) (ofZ 0))).
  vm_compute in H. specialize (H eq_refl). discriminate H.
Qed.

(** C1, amended.  In a running frame every scenery entity moves back by
    the frame's distance.  A road segment that is then more than half a
    segment behind the camera, and a stripe more than 20 behind it, is
    recycled by adding exactly [roadLength] to its [z] and to its mesh.
    A tree or building more than 20 behind the camera is instead moved by
    [roadLength + (cameraDistance - z)], that is put back at a fixed
    distance [roadLength] ahead of the camera. *)
Theorem updateGame_recycles (deltaTime : number) (r : Random) (s : State) :
  isPaused s = false ->
  let d := frameDistance deltaTime s in
  let s' := updateGame deltaTime r s in
  Forall2 (itemScrolled (segmentLength / ofZ 2) d)
          (roadSegments s) (roadSegments s')
  /\ Forall2 (itemScrolled (ofZ 20) d) (roadStripes s) (roadStripes s')
  /\ Forall2 (treeScrolled d) (trees s) (trees s')
  /\ Forall2 (buildingScrolled d) (buildings s) (buildings s').
Proof.
  intros Hp d s'.
  pose proof (sceneryOf_updateGame deltaTime r s Hp) as E.
  unfold sceneryOf in E. fold d s' in E. injection E as -> -> -> ->.
  repeat split; apply Forall2_map_self.
  - intros it. unfold itemScrolled, scrollItem. cbv zeta.
    destruct (itemZ it - d <? _); split; reflexivity.
  - intros it. unfold itemScrolled, scrollItem. cbv zeta.
    destruct (itemZ it - d <? _); split; reflexivity.
  - intros t. unfold treeScrolled, scrollTree. cbv zeta.
    destruct (trunkZ t - d <? _); split; reflexivity.
  - intros b. unfold buildingScrolled, scrollBuilding. cbv zeta.
    destruct (meshZ b - d <? _); reflexivity.
Qed.

(** A frame of one second at top speed takes the sample segment at [z = 0]
    far behind the camera; it comes back [roadLength] further. *)
Lemma updateGame_recycles_witness :
  isPaused sampleFast = false
  /\ (itemZ (nth 0 (roadSegments sampleFast) (mkRoadItem NaN NaN))
      - frameDistance (ofZ 1) sampleFast
      <? cameraDistance - segmentLength / ofZ 2) = true
  /\ Forall2 (itemScrolled (segmentLength / ofZ 2)
                           (frameDistance (ofZ 1) sampleFast))
             (roadSegments sampleFast)
             (roadSegments
                (updateGame (ofZ 1) centreDraws
                            sampleFast)).
Proof.
  split; [reflexivity|]. split; [vm_compute; reflexivity|].
  apply (updateGame_recycles (ofZ 1) centreDraws
           sampleFast).
  reflexivity.
Defined.

(** ** The spawn gate *)

Lemma clockOf_updateSpeed (s : State) : clockOf (updateSpeed s) = clockOf s.
Proof. unfold clockOf, updateSpeed. stage_frame. Qed.

Lemma clockOf_jumpPhysics (s : State) : clockOf (jumpPhysics s) = clockOf s.
Proof. unfold clockOf, jumpPhysics. stage_frame. Qed.

Lemma clockOf_steer (s : State) : clockOf (steer s) = clockOf s.
Proof. reflexivity. Qed.

Lemma clockOf_checkCollisions (s : State) :
  clockOf (checkCollisions s) = clockOf s.
Proof.
  unfold clockOf, checkCollisions, handleCollision, gameOver. stage_frame.
Qed.

Lemma clockOf_updateScore (deltaTime : number) (s : State) :
  clockOf (updateScore deltaTime s) = clockOf s.
Proof. unfold clockOf, updateScore. stage_frame. Qed.

Lemma clockOf_before_scroll (deltaTime : number) (s : State) :
  clockOf (beforeScroll deltaTime s) = clockOf s.
Proof.
  unfold beforeScroll.
  rewrite clockOf_updateScore, clockOf_checkCollisions.
  rewrite clockOf_steer.
  now rewrite clockOf_jumpPhysics, clockOf_updateSpeed.
Qed.

Lemma elapsedTime_spawnObstacle (r : Random) (s : State) :
  elapsedTime (spawnObstacle r s) = elapsedTime s.
Proof. unfold spawnObstacle. stage_frame. Qed.

(** The obstacles and the spawn clock after the world has scrolled. *)
Lemma spawn_scrollWorld (d : number) (r : Random) (s : State) :
  let s1 := set_obstacles (moveObstacles d (obstacles s)) s in
  obstacles (scrollWorld d r s)
  = (if spawnGate s then obstacles s1 ++ [spawned r s1] else obstacles s1)
  /\ lastObstacleTime (scrollWorld d r s)
     = (if spawnGate s then elapsedTime s else lastObstacleTime s).
Proof.
  intros s1. unfold scrollWorld. fold s1.
  change (spawnGate s) with (spawnGate s1).
  change (elapsedTime s) with (elapsedTime s1).
  change (lastObstacleTime s) with (lastObstacleTime s1).
  clearbody s1. unfold scrollScenery, spawnCheck.
  cbn [obstacles lastObstacleTime set_buildings set_trees set_roadStripes
       set_roadSegments].
  destruct (spawnGate s1); [|split; reflexivity].
  cbn [obstacles lastObstacleTime set_lastObstacleTime].
  rewrite spawnObstacle_obstacles, ?elapsedTime_spawnObstacle.
  split; reflexivity.
Qed.

Lemma spawn_updateGame (deltaTime : number) (r : Random) (s : State) :
  isPaused s = false ->
  exists s1,
    obstacles s1 = frameRoad deltaTime s
    /\ obstacles (updateGame deltaTime r s)
       = (if frameFires deltaTime s
          then obstacles s1 ++ [spawned r s1] else obstacles s1)
    /\ lastObstacleTime (updateGame deltaTime r s)
       = (if frameFires deltaTime s
          then elapsedTime s + deltaTime else lastObstacleTime s).
Proof.
  intros Hp. unfold updateGame.
  cbn [isPaused set_elapsedTime]. rewrite Hp.
  unfold simulate, frameRoad, frameFires, frameDistance. cbv zeta.
  pose proof (speed_before_scroll deltaTime
                (set_elapsedTime (elapsedTime s + deltaTime) s)) as Hv.
  pose proof (clockOf_before_scroll deltaTime
                (set_elapsedTime (elapsedTime s + deltaTime) s)) as Hc.
  revert Hv Hc.
  generalize (beforeScroll deltaTime
                (set_elapsedTime (elapsedTime s + deltaTime) s)).
  intros s0 Hv Hc.
  cbn [speed set_elapsedTime] in Hv.
  unfold clockOf in Hc.
  cbn [elapsedTime lastObstacleTime set_elapsedTime] in Hc.
  injection Hc as He Hl.
  destruct (spawn_scrollWorld (speed s0 * deltaTime) r s0) as [Eo El].
  rewrite Eo, El. unfold spawnGate. rewrite He, Hl, Hv.
  eexists. split; [|split; reflexivity]. reflexivity.
Qed.

(** C4, as stated, fails: at top speed, one second after the last spawn,
    the frame spawns an obstacle, while the stated threshold is still
    above 1.5 s. *)
Lemma spawn_gate_not_as_stated : ~ spawnsAsStated.
Proof.
  intros H.
  specialize (H (ofZ 1) centreDraws sampleFast eq_refl).
  vm_compute in H. discriminate H.
Qed.

(** C4, amended.  A running frame spawns an obstacle exactly when the time
    since the last spawn, on the advanced clock, exceeds
    [obstacleInterval - (speed / maxSpeed) * (obstacleInterval - 0.5)] at
    the updated speed, that is the stated formula with
    [minInterval = 0.5]; a spawn appends one obstacle and restarts the
    spawn clock.  The threshold is [obstacleInterval] at speed 0 and 0.5 s
    at [maxSpeed]. *)
Theorem updateGame_spawn_gate
        (deltaTime : number) (r : Random) (s : State) :
  isPaused s = false ->
  let s' := updateGame deltaTime r s in
  (if frameFires deltaTime s
   then (exists o, obstacles s' = frameRoad deltaTime s ++ [o])
        /\ lastObstacleTime s' = elapsedTime s + deltaTime
   else obstacles s' = frameRoad deltaTime s
        /\ lastObstacleTime s' = lastObstacleTime s)
  /\ frameSpawns deltaTime r s = frameFires deltaTime s
  /\ spawnThreshold (ofZ 0) = obstacleInterval
  /\ spawnThreshold maxSpeed = dec 5 1.
Proof.
  intros Hp s'.
  destruct (spawn_updateGame deltaTime r s Hp) as (s1 & E1 & Eo & El).
  fold s' in Eo, El. unfold frameSpawns. fold s'.
  rewrite Eo, El, E1.
  destruct (frameFires deltaTime s).
  - repeat split; try reflexivity.
    + now exists (spawned r s1).
    + rewrite length_app, Nat.add_1_r. apply Nat.eqb_refl.
  - repeat split; try reflexivity.
    apply Nat.eqb_neq. lia.
Qed.

(** At top speed, one second after the last spawn, the frame spawns. *)
Lemma updateGame_spawn_gate_witness :
  isPaused sampleFast = false
  /\ frameFires (ofZ 1) sampleFast = true
  /\ frameSpawns (ofZ 1) centreDraws sampleFast = true.
Proof.
  split; [reflexivity|]. split; [vm_compute; reflexivity|].
  destruct (updateGame_spawn_gate (ofZ 1) centreDraws
              sampleFast eq_refl) as (_ & E & _).
  rewrite E. vm_compute. reflexivity.
Defined.

(** ** The jump arc *)

Lemma jumpOf_jumpPhysics (s : State) :
  jumpOf (jumpPhysics s) = jumpStep (jumpOf s).
Proof.
  unfold jumpOf, jumpStep, jumpPhysics.
  destruct (isJumping s) eqn:E; jump_fields; [|now rewrite E].
  destruct (jumpHeight s + jumpVelocity s >? maxJumpHeight); jump_fields;
    match goal with |- context [?a <=? ofZ 0] => destruct (a <=? ofZ 0) end;
    jump_fields; rewrite ?E; reflexivity.
Qed.

Lemma jumpOf_updateSpeed (s : State) : jumpOf (updateSpeed s) = jumpOf s.
Proof. unfold jumpOf, updateSpeed. stage_frame. Qed.

Lemma jumpOf_steer (s : State) : jumpOf (steer s) = jumpOf s.
Proof. reflexivity. Qed.

Lemma jumpOf_checkCollisions (s : State) :
  jumpOf (checkCollisions s) = jumpOf s.
Proof.
  unfold jumpOf, checkCollisions, handleCollision, gameOver. stage_frame.
Qed.

Lemma jumpOf_updateScore (deltaTime : number) (s : State) :
  jumpOf (updateScore deltaTime s) = jumpOf s.
Proof. unfold jumpOf, updateScore. stage_frame. Qed.

Lemma jumpOf_scrollWorld (d : number) (r : Random) (s : State) :
  jumpOf (scrollWorld d r s) = jumpOf s.
Proof.
  unfold jumpOf, scrollWorld, scrollScenery, spawnCheck, spawnObstacle.
  stage_frame.
Qed.

Lemma jumpOf_updateGame (deltaTime : number) (r : Random) (s : State) :
  isPaused s = false ->
  jumpOf (updateGame deltaTime r s) = jumpStep (jumpOf s).
Proof.
  intros Hp. unfold updateGame.
  cbn [isPaused set_elapsedTime]. rewrite Hp.
  unfold simulate, beforeScroll. cbv zeta.
  now rewrite jumpOf_scrollWorld, jumpOf_updateScore, jumpOf_checkCollisions,
    jumpOf_steer, jumpOf_jumpPhysics, jumpOf_updateSpeed.
Qed.

Lemma session_Running (s : State) :
  session s = Running -> gameActive s = true /\ isPaused s = false.
Proof.
  unfold session.
  destruct (gameActive s), (isPaused s), (gameOverScreen s);
    try discriminate; now split.
Qed.

Lemma jumpOf_runFrames (fs : list (number * Random)) : forall s,
  runningThrough fs s ->
  jumpOf (runFrames fs s) = Nat.iter (length fs) jumpStep (jumpOf s).
Proof.
  induction fs as [|[deltaTime r] rest IH]; intros s H; [reflexivity|].
  destruct H as [Hs Hrest]. cbn [runFrames length].
  rewrite Nat.iter_succ_r, (IH _ Hrest).
  destruct (session_Running s Hs) as [Ha Hp].
  unfold animate. rewrite Ha.
  now rewrite (jumpOf_updateGame deltaTime r s Hp).
Qed.

Lemma arc_lands (n : nat) :
  (arcFrames <= n)%nat ->
  Nat.iter n jumpStep takeOff = (false, ofZ 0, ofZ 0).
Proof.
  intros H. replace n with ((n - arcFrames) + arcFrames)%nat by lia.
  rewrite Nat.iter_add.
  replace (Nat.iter arcFrames jumpStep takeOff) with (false, ofZ 0, ofZ 0)
    by (vm_compute; reflexivity).
  induction (n - arcFrames)%nat as [|k IH]; [reflexivity|].
  cbn [Nat.iter nat_rect]. fold (Nat.iter k jumpStep (false, ofZ 0, ofZ 0)).
  now rewrite IH.
Qed.

Lemma arc_airborne (n : nat) :
  (0 < n < arcFrames)%nat -> airborne (Nat.iter n jumpStep takeOff) = true.
Proof.
  intros H.
  assert (A : forallb (fun k => airborne (Nat.iter k jumpStep takeOff))
                      (seq 1 (arcFrames - 1)) = true)
    by (vm_compute; reflexivity).
  rewrite forallb_forall in A. apply A. apply in_seq. unfold arcFrames in *.
  lia.
Qed.

Lemma jumpOf_onKeyDown_jump (k : Key) (s : State) :
  k = KeyJ \/ k = Space ->
  session s = Running -> isJumping s = false ->
  jumpOf (onKeyDown k s) = takeOff
  /\ session (onKeyDown k s) = Running.
Proof.
  intros Hk Hs Hj. destruct (session_Running s Hs) as [Ha Hp].
  unfold onKeyDown. rewrite Ha, Hp. cbn [negb andb].
  unfold session, jumpOf.
  destruct Hk as [-> | ->]; unfold startJump;
    cbn [isJumping set_speed]; rewrite Hj;
    cbn [isJumping jumpHeight jumpVelocity gameActive isPaused
         set_isJumping set_jumpVelocity set_jumpHeight set_jumpStartTime
         set_speed];
    rewrite Ha, Hp; split; reflexivity.
Qed.

(** C8. A jump started on the ground (with ['j'] or the space bar, in a
    running session) sets the jump flag, the height 0 and the initial
    velocity; from there the per-frame integration of [updateGame] keeps
    the vehicle in the air, above 0, for 33 frames, and on the 34th frame
    the height is exactly 0, the velocity 0 and the jump flag cleared, and
    so they stay on every later frame. *)
Theorem jump_arc_terminates
        (k : Key) (s : State) (fs : list (number * Random)) :
  k = KeyJ \/ k = Space ->
  session s = Running ->
  isJumping s = false ->
  runningThrough fs (onKeyDown k s) ->
  let s' := runFrames fs (onKeyDown k s) in
  jumpOf (onKeyDown k s) = (true, ofZ 0, jumpInitialVelocity)
  /\ ((0 < length fs < arcFrames)%nat ->
      isJumping s' = true /\ (jumpHeight s' >? ofZ 0) = true)
  /\ ((arcFrames <= length fs)%nat ->
      isJumping s' = false
      /\ jumpHeight s' = ofZ 0 /\ jumpVelocity s' = ofZ 0).
Proof.
  intros Hk Hs Hj Hrun s'.
  destruct (jumpOf_onKeyDown_jump k s Hk Hs Hj) as [E0 _].
  pose proof (jumpOf_runFrames fs _ Hrun) as E. fold s' in E.
  rewrite E0 in E. fold takeOff in E.
  split; [exact E0|]. split; intros Hn.
  - pose proof (arc_airborne (length fs) Hn) as A. rewrite <- E in A.
    unfold airborne, jumpOf in A. now apply andb_prop in A.
  - rewrite (arc_lands (length fs) Hn) in E. unfold jumpOf in E.
    injection E as -> -> ->. repeat split.
Qed.

(** A jump in a game just started lands on the 34th frame. *)
Lemma jump_arc_terminates_witness :
  let s' := runFrames sampleFrames (onKeyDown KeyJ sampleStarted) in
  isJumping s' = false /\ jumpHeight s' = ofZ 0 /\ jumpVelocity s' = ofZ 0.
Proof.
  apply (jump_arc_terminates KeyJ sampleStarted sampleFrames).
  - left; reflexivity.
  - reflexivity.
  - reflexivity.
  - vm_compute. repeat split.
  - vm_compute. lia.
Defined.

(** ** Overtakes *)

(** The loop in closed form: the obstacles that pass the test are
    credited, in array order; each adds 100 to the score, one to the count
    and an entry to the history. *)
Lemma overtakeLoop_eq (playerZ : number) (l : list Object3D) :
  forall (sc : number) (n : Z) (log : list Award),
    overtakeLoop playerZ l sc n log
    = (map (credit playerZ) l,
       fold_left addBonus (map (awardOf playerZ) (filter (passes playerZ) l))
                 sc,
       (n + Z.of_nat (length (filter (passes playerZ) l)))%Z,
       log ++ map (awardOf playerZ) (filter (passes playerZ) l)).
Proof.
  induction l as [|o rest IH]; intros sc n log; cbn [overtakeLoop].
  - cbn. now rewrite Z.add_0_r, app_nil_r.
  - cbn [map filter]. unfold credit at 1.
    destruct (passes playerZ o); rewrite IH; [|reflexivity].
    cbn [map fold_left length]. rewrite <- app_assoc. cbn [app].
    replace (n + 1 + Z.of_nat (length (filter (passes playerZ) rest)))%Z
      with (n + Z.of_nat (S (length (filter (passes playerZ) rest))))%Z
      by lia.
    reflexivity.
Qed.

Lemma updateScore_eq (deltaTime : number) (s : State) :
  let playerZ := posZ (position (player s)) in
  let new := map (awardOf playerZ) (filter (passes playerZ) (obstacles s)) in
  obstacles (updateScore deltaTime s) = map (credit playerZ) (obstacles s)
  /\ overtakeLog (updateScore deltaTime s) = overtakeLog s ++ new
  /\ carsOvertaken (updateScore deltaTime s)
     = (carsOvertaken s + Z.of_nat (length new))%Z
  /\ score (updateScore deltaTime s)
     = fold_left addBonus new (score s + deltaTime * speed s / ofZ 10)
  /\ nextId (updateScore deltaTime s) = nextId s.
Proof.
  intros playerZ new. unfold updateScore.
  cbn [player obstacles score carsOvertaken overtakeLog set_score].
  rewrite overtakeLoop_eq. fold playerZ. fold new.
  cbn [obstacles overtakeLog carsOvertaken score nextId set_overtakeLog
       set_carsOvertaken set_score set_obstacles].
  unfold new at 3. rewrite length_map.
  repeat split; reflexivity.
Qed.

Lemma evolves_refl (w : World) : evolves w w.
Proof.
  intros H. split; [exact H|]. split; [|lia].
  intros o' Hin. right. exists o'. auto.
Qed.

Lemma evolves_trans (w1 w2 w3 : World) :
  evolves w1 w2 -> evolves w2 w3 -> evolves w1 w3.
Proof.
  intros H12 H23 H1.
  destruct (H12 H1) as (H2 & D12 & L12).
  destruct (H23 H2) as (H3 & D23 & L23).
  split; [exact H3|]. split; [|lia].
  intros o3 Hin3. destruct (D23 o3 Hin3) as [Hy|(o2 & Hin2 & Eu & Hf)].
  - left. lia.
  - destruct (D12 o2 Hin2) as [Hy|(o1 & Hin1 & Eu1 & Hf1)].
    + left. lia.
    + right. exists o1. repeat split; auto. congruence.
Qed.

Lemma thinned_refl (l : list Object3D) : thinned l l.
Proof. induction l; [constructor|apply thinned_keep; auto]. Qed.

Lemma thinned_all (l : list Object3D) : thinned l [].
Proof. induction l; [constructor|apply thinned_drop; auto]. Qed.

Lemma thinned_In (l l' : list Object3D) :
  thinned l l' ->
  forall o', In o' l' ->
    exists o, In o l /\ uid o' = uid o /\ userData o' = userData o.
Proof.
  induction 1 as [|o l l' _ IH|o o1 l l' Eu Ed _ IH]; intros o' Hin.
  - contradiction.
  - destruct (IH o' Hin) as (o0 & H0 & H1). exists o0. split; [now right|auto].
  - destruct Hin as [<-|Hin].
    + exists o. split; [now left|auto].
    + destruct (IH o' Hin) as (o0 & H0 & H1).
      exists o0. split; [now right|auto].
Qed.

Lemma thinned_NoDup (l l' : list Object3D) :
  thinned l l' -> NoDup (map uid l) -> NoDup (map uid l').
Proof.
  induction 1 as [|o l l' Ht IH|o o1 l l' Eu Ed Ht IH]; cbn; intros Hnd.
  - constructor.
  - inversion Hnd; auto.
  - inversion Hnd as [|? ? Hfresh Hrest]; subst. constructor; auto.
    intros Hin. apply Hfresh. apply in_map_iff in Hin.
    destruct Hin as (o2 & E2 & Hin2).
    destruct (thinned_In _ _ Ht o2 Hin2) as (o0 & H0 & Eu0 & _).
    apply in_map_iff. exists o0. split; [congruence|exact H0].
Qed.

Lemma evolves_thinned (obs obs' : list Object3D) (next : nat)
      (log : list Award) :
  thinned obs obs' -> evolves (obs, next, log) (obs', next, log).
Proof.
  intros Ht (Hnd & Hb & Hlb & Hln & Hc & Hok). cbn [fst snd].
  split; [|split; [|lia]].
  - repeat split; auto.
    + now apply (thinned_NoDup _ _ Ht).
    + rewrite Forall_forall in *. intros o' Hin.
      destruct (thinned_In _ _ Ht o' Hin) as (o & H0 & Eu & _).
      rewrite Eu. auto.
    + rewrite Forall_forall in *. intros o' Hin Hlog.
      destruct (thinned_In _ _ Ht o' Hin) as (o & H0 & Eu & Ed).
      unfold isOvertaken. rewrite Ed. apply (Hc o H0). now rewrite <- Eu.
  - intros o' Hin. right.
    destruct (thinned_In _ _ Ht o' Hin) as (o & H0 & Eu & Ed).
    exists o. repeat split; auto. unfold isOvertaken. now rewrite Ed.
Qed.

Lemma thinned_removeAt (i : nat) : forall l, thinned l (removeAt i l).
Proof.
  induction i as [|j IH]; intros [|o rest]; cbn.
  - constructor.
  - apply thinned_drop, thinned_refl.
  - constructor.
  - apply thinned_keep; auto.
Qed.

Lemma thinned_removelast (l : list Object3D) : thinned l (removelast l).
Proof.
  induction l as [|o rest IH]; cbn [removelast]; [constructor|].
  destruct rest; [apply thinned_drop; constructor|].
  apply thinned_keep; auto.
Qed.

Lemma thinned_splice1 (i : option nat) (l : list Object3D) :
  thinned l (splice1 i l).
Proof.
  destruct i; [apply thinned_removeAt|apply thinned_removelast].
Qed.

Lemma thinned_moveObstacles (d : number) (l : list Object3D) :
  thinned l (moveObstacles d l).
Proof.
  induction l as [|o rest IH]; cbn [moveObstacles]; [constructor|].
  destruct (_ <? cameraDistance);
    [apply thinned_drop|apply thinned_keep]; auto.
Qed.

Lemma uid_determines (l : list Object3D) (o1 o2 : Object3D) :
  NoDup (map uid l) -> In o1 l -> In o2 l -> uid o1 = uid o2 -> o1 = o2.
Proof.
  induction l as [|o rest IH]; cbn; intros Hnd H1 H2 E; [contradiction|].
  inversion Hnd as [|? ? Hfresh Hrest]; subst.
  destruct H1 as [<-|H1], H2 as [<-|H2]; auto.
  - exfalso. apply Hfresh. rewrite E. now apply in_map.
  - exfalso. apply Hfresh. rewrite <- E. now apply in_map.
Qed.

Lemma uid_credit (playerZ : number) (o : Object3D) :
  uid (credit playerZ o) = uid o.
Proof. unfold credit. now destruct (passes playerZ o). Qed.

Lemma passes_not_overtaken (playerZ : number) (o : Object3D) :
  passes playerZ o = true -> ~ isOvertaken o.
Proof.
  unfold passes, notOvertaken, isOvertaken. intros H E. rewrite E in H.
  now rewrite andb_false_r in H.
Qed.

Lemma passes_awardOk (playerZ : number) (o : Object3D) :
  passes playerZ o = true -> awardOk (awardOf playerZ o).
Proof.
  unfold passes, overtakeable, awardOk, awardOf. cbn. intros H.
  apply andb_prop in H. destruct H as [H Hz].
  apply andb_prop in H. destruct H as [Hc _].
  split; [|exact Hz].
  destruct (category (userData o)) as [[]|]; try discriminate; auto.
Qed.

Lemma awardUid_credited (playerZ : number) (l : list Object3D) (n : nat) :
  In n (map awardUid (map (awardOf playerZ) (filter (passes playerZ) l)))
  <-> exists o, In o l /\ passes playerZ o = true /\ uid o = n.
Proof.
  rewrite map_map. cbn. rewrite in_map_iff. split.
  - intros (o & E & Hin). apply filter_In in Hin. exists o. tauto.
  - intros (o & Hin & Hp & E). exists o. split; [exact E|].
    apply filter_In. tauto.
Qed.

Lemma NoDup_uid_filter (f : Object3D -> bool) (l : list Object3D) :
  NoDup (map uid l) -> NoDup (map uid (filter f l)).
Proof.
  induction l as [|o rest IH]; cbn; intros Hnd; [constructor|].
  inversion Hnd as [|? ? Hfresh Hrest]; subst.
  destruct (f o); cbn; auto. constructor; auto.
  intros Hin. apply Hfresh. apply in_map_iff in Hin.
  destruct Hin as (o2 & E & Hin). apply filter_In in Hin.
  apply in_map_iff. exists o2. tauto.
Qed.

(** The overtake loop keeps the invariant. *)
Lemma evolves_credit (playerZ : number) (obs : list Object3D) (next : nat)
      (log : list Award) :
  evolves (obs, next, log)
          (map (credit playerZ) obs, next,
           log ++ map (awardOf playerZ) (filter (passes playerZ) obs)).
Proof.
  intros (Hnd & Hb & Hlb & Hln & Hc & Hok). cbn [fst snd].
  assert (Hu : map uid (map (credit playerZ) obs) = map uid obs).
  { rewrite map_map. apply map_ext. apply uid_credit. }
  rewrite Forall_forall in Hb, Hc.
  split; [|split; [|lia]].
  - split; [now rewrite Hu|]. split.
    { apply Forall_map. apply Forall_forall. intros o Hin.
      rewrite uid_credit. auto. }
    split.
    { apply Forall_app. split; [exact Hlb|].
      apply Forall_forall. intros a Ha. apply in_map_iff in Ha.
      destruct Ha as (o & <- & Hin). apply filter_In in Hin. cbn.
      apply Hb. tauto. }
    split.
    { rewrite map_app. apply NoDup_app; [exact Hln| |].
      - rewrite map_map. cbn. now apply NoDup_uid_filter.
      - intros n Hlog Hnew. apply awardUid_credited in Hnew.
        destruct Hnew as (o & Hin & Hp & <-).
        apply (passes_not_overtaken playerZ o Hp). auto. }
    split.
    { apply Forall_map. apply Forall_forall. intros o Hin.
      rewrite uid_credit, map_app, in_app_iff. intros [Hlog|Hnew].
      - pose proof (Hc o Hin Hlog) as Ho. unfold credit.
        destruct (passes playerZ o) eqn:Hp; [|exact Ho].
        reflexivity.
      - apply awardUid_credited in Hnew.
        destruct Hnew as (o2 & Hin2 & Hp & E).
        rewrite (uid_determines obs o2 o Hnd Hin2 Hin E) in Hp.
        unfold credit. rewrite Hp. reflexivity. }
    apply Forall_app. split; [exact Hok|].
    apply Forall_forall. intros a Ha. apply in_map_iff in Ha.
    destruct Ha as (o & <- & Hin). apply filter_In in Hin.
    apply passes_awardOk. tauto.
  - intros o' Hin. right. apply in_map_iff in Hin.
    destruct Hin as (o & <- & Hin). exists o.
    split; [exact Hin|]. split; [now rewrite uid_credit|].
    intros Ho. unfold credit.
    destruct (passes playerZ o) eqn:Hp; [reflexivity|exact Ho].
Qed.

(** So does a spawn. *)
Lemma evolves_spawn (o : Object3D) (obs : list Object3D) (next : nat)
      (log : list Award) :
  uid o = next -> ~ isOvertaken o ->
  evolves (obs, next, log) (obs ++ [o], S next, log).
Proof.
  intros Eu Hno (Hnd & Hb & Hlb & Hln & Hc & Hok). cbn [fst snd].
  rewrite Forall_forall in Hb, Hlb.
  split; [|split; [|lia]].
  - split.
    { rewrite map_app. apply NoDup_app; [exact Hnd| |].
      - cbn. constructor; [intros []|constructor].
      - intros n Hin [<-|[]]. apply in_map_iff in Hin.
        destruct Hin as (o2 & E & Hin). specialize (Hb o2 Hin). lia. }
    split.
    { apply Forall_app. split.
      - apply Forall_forall. intros o2 Hin. specialize (Hb o2 Hin). lia.
      - constructor; [lia|constructor]. }
    split.
    { apply Forall_forall. intros a Ha. specialize (Hlb a Ha). lia. }
    split; [exact Hln|]. split; [|exact Hok].
    apply Forall_app. split; [exact Hc|].
    constructor; [|constructor].
    intros Hin. exfalso. apply in_map_iff in Hin.
    destruct Hin as (a & E & Ha). specialize (Hlb a Ha). lia.
  - intros o' Hin. apply in_app_iff in Hin. destruct Hin as [Hin|[<-|[]]].
    + right. exists o'. auto.
    + left. lia.
Qed.

(** *** The stages of the program on worlds *)

Lemma worldOf_updateSpeed (s : State) : worldOf (updateSpeed s) = worldOf s.
Proof. unfold worldOf, updateSpeed. stage_frame. Qed.

Lemma worldOf_jumpPhysics (s : State) : worldOf (jumpPhysics s) = worldOf s.
Proof. unfold worldOf, jumpPhysics. stage_frame. Qed.

Lemma worldOf_steer (s : State) : worldOf (steer s) = worldOf s.
Proof. reflexivity. Qed.

Lemma evolves_checkCollisions (s : State) :
  evolves (worldOf s) (worldOf (checkCollisions s)).
Proof.
  unfold checkCollisions.
  destruct (isJumping s && (jumpHeight s >? ofZ 2)); [apply evolves_refl|].
  destruct (find _ _) as [o|]; [|apply evolves_refl].
  replace (worldOf (handleCollision o s))
    with (splice1 (indexOf o (obstacles s)) (obstacles s),
          nextId s, overtakeLog s).
  - apply evolves_thinned, thinned_splice1.
  - unfold worldOf, handleCollision, gameOver. stage_frame.
Qed.

Lemma evolves_updateScore (deltaTime : number) (s : State) :
  evolves (worldOf s) (worldOf (updateScore deltaTime s)).
Proof.
  destruct (updateScore_eq deltaTime s) as (Eo & El & _ & _ & En).
  unfold worldOf. rewrite Eo, El, En. apply evolves_credit.
Qed.

Lemma spawned_fresh (r : Random) (s : State) :
  uid (spawned r s) = nextId s /\ ~ isOvertaken (spawned r s).
Proof.
  unfold spawned, spawnObstacle, isOvertaken.
  destruct (typeDraw r <? dec 7 1); [|destruct (typeDraw r <? dec 85 2)];
    cbn [obstacles set_obstacles set_nextId]; rewrite last_last;
    split; try reflexivity; discriminate.
Qed.

Lemma worldOf_spawnObstacle (r : Random) (s : State) :
  worldOf (spawnObstacle r s)
  = (obstacles s ++ [spawned r s], S (nextId s), overtakeLog s).
Proof.
  unfold worldOf. rewrite spawnObstacle_obstacles.
  unfold spawnObstacle. stage_frame.
Qed.

Lemma evolves_scrollWorld (d : number) (r : Random) (s : State) :
  evolves (worldOf s) (worldOf (scrollWorld d r s)).
Proof.
  unfold scrollWorld.
  set (s1 := set_obstacles (moveObstacles d (obstacles s)) s).
  apply evolves_trans with (w2 := worldOf s1).
  { apply evolves_thinned, thinned_moveObstacles. }
  clearbody s1.
  replace (worldOf (scrollScenery d (spawnCheck r s1)))
    with (worldOf (spawnCheck r s1)) by reflexivity.
  unfold spawnCheck. destruct (spawnGate s1); [|apply evolves_refl].
  replace (worldOf (set_lastObstacleTime (elapsedTime s1)
                      (spawnObstacle r s1)))
    with (worldOf (spawnObstacle r s1)) by reflexivity.
  rewrite worldOf_spawnObstacle.
  destruct (spawned_fresh r s1) as [Eu Hno].
  now apply evolves_spawn.
Qed.

Lemma evolves_updateGame (deltaTime : number) (r : Random) (s : State) :
  evolves (worldOf s) (worldOf (updateGame deltaTime r s)).
Proof.
  unfold updateGame. cbn [isPaused set_elapsedTime].
  destruct (isPaused s); [apply evolves_refl|].
  unfold simulate, beforeScroll. cbv zeta.
  set (s0 := set_elapsedTime (elapsedTime s + deltaTime) s).
  change (worldOf s) with (worldOf s0). clearbody s0.
  eapply evolves_trans; [|apply evolves_scrollWorld].
  eapply evolves_trans; [|apply evolves_updateScore].
  eapply evolves_trans; [|apply evolves_checkCollisions].
  rewrite worldOf_steer, worldOf_jumpPhysics, worldOf_updateSpeed.
  apply evolves_refl.
Qed.

Lemma worldOf_onKeyDown (k : Key) (s : State) :
  worldOf (onKeyDown k s) = worldOf s.
Proof.
  unfold worldOf, onKeyDown, startJump.
  destruct (negb (gameActive s) && negb (isPaused s)); [reflexivity|].
  destruct (isPaused s), k; cbn; split_ifs; reflexivity.
Qed.

Lemma worldOf_startGame (s : State) : worldOf (startGame s) = worldOf s.
Proof. reflexivity. Qed.

Lemma evolves_step (s : State) (e : Event) :
  evolves (worldOf s) (worldOf (step s e)).
Proof.
  destruct e as [deltaTime r|k| |]; cbn [step].
  - unfold animate. destruct (gameActive s);
      [apply evolves_updateGame|apply evolves_refl].
  - rewrite worldOf_onKeyDown. apply evolves_refl.
  - rewrite worldOf_startGame. apply evolves_refl.
  - replace (worldOf (restartGame s))
      with (@nil Object3D, nextId s, overtakeLog s) by reflexivity.
    apply evolves_thinned, thinned_all.
Qed.

Lemma Inv_initialState (segs stripes : list RoadItem) (ts : list Tree)
      (bs : list RoadItem) :
  Inv (worldOf (initialState segs stripes ts bs)).
Proof. cbn. repeat split; constructor. Qed.

Lemma Inv_run (es : list Event) : forall s,
  Inv (worldOf s) -> Inv (worldOf (run es s)).
Proof.
  induction es as [|e rest IH]; intros s H; [exact H|].
  cbn [run fold_left]. apply IH. now apply (evolves_step s e).
Qed.

(** C6. Over a whole session, from the mounted page through any sequence
    of refreshes, key presses and clicks:
    - no obstacle is credited twice: the history of awards holds each
      obstacle at most once;
    - every award went to a car or a rocket (never a barrier) whose [z] was
      below the player's;
    - the [overtaken] flag is a latch: an obstacle that carries it still
      carries it after any further event, so it goes from false to true at
      most once;
    and in every call of [updateScore] the awards are exactly the obstacles
    that pass the test (overtakeable, flag not set, behind the player):
    each of them gets the flag, 100 points and one unit of
    [carsOvertaken], and nothing else touches flag or count. *)
Theorem overtake_awarded_once
        (segs stripes : list RoadItem) (ts : list Tree) (bs : list RoadItem)
        (es : list Event) :
  let s := run es (initialState segs stripes ts bs) in
  NoDup (map awardUid (overtakeLog s))
  /\ Forall awardOk (overtakeLog s)
  /\ (forall (e : Event) (o o' : Object3D),
         In o (obstacles s) -> In o' (obstacles (step s e)) ->
         uid o' = uid o -> isOvertaken o -> isOvertaken o')
  /\ (forall (deltaTime : number) (s0 : State),
         let playerZ := posZ (position (player s0)) in
         let new :=
           map (awardOf playerZ) (filter (passes playerZ) (obstacles s0)) in
         obstacles (updateScore deltaTime s0)
         = map (credit playerZ) (obstacles s0)
         /\ overtakeLog (updateScore deltaTime s0) = overtakeLog s0 ++ new
         /\ carsOvertaken (updateScore deltaTime s0)
            = (carsOvertaken s0 + Z.of_nat (length new))%Z
         /\ score (updateScore deltaTime s0)
            = fold_left addBonus new
                (score s0 + deltaTime * speed s0 / ofZ 10)).
Proof.
  intros s.
  assert (HI : Inv (worldOf s)).
  { apply Inv_run, Inv_initialState. }
  pose proof HI as (Hnd & Hb & _ & Hln & _ & Hok).
  split; [exact Hln|]. split; [exact Hok|]. split.
  - intros e o o' Hin Hin' Eu Ho.
    destruct (evolves_step s e HI) as (_ & D & _). cbn [worldOf fst snd] in D.
    rewrite Forall_forall in Hb.
    destruct (D o' Hin') as [Hy|(o2 & Hin2 & Eu2 & Hf)].
    + specialize (Hb o Hin). lia.
    + assert (E : o2 = o).
      { apply (uid_determines (obstacles s)); auto. congruence. }
      subst o2. auto.
  - intros deltaTime s0 playerZ new.
    destruct (updateScore_eq deltaTime s0) as (Eo & El & En & Es & _).
    repeat split; assumption.
Qed.

(** A car that has fallen behind the player is credited by the next score
    update, and not again by the one after. *)
Example overtake_credited_once :
  let s := set_obstacles [setZ (ofZ (-10)) carAhead] sampleStarted in
  carsOvertaken (updateScore (dec 16 3) s) = 1%Z
  /\ map awardUid (overtakeLog (updateScore (dec 16 3) s)) = [7%nat]
  /\ carsOvertaken (updateScore (dec 16 3) (updateScore (dec 16 3) s)) = 1%Z.
Proof. vm_compute. repeat split. Qed.

(** ** Restart *)

(** What [restartGame] resets, from any state, and what it leaves: the pause
    flag. *)
Lemma restartGame_resets (s : State) :
  let s' := restartGame s in
  obstacles s' = []
  /\ position (player s') = origin
  /\ lane s' = 1%nat
  /\ speed s' = ofZ 0
  /\ score s' = ofZ 0
  /\ elapsedTime s' = ofZ 0
  /\ lastObstacleTime s' = ofZ 0
  /\ lives s' = 3%Z
  /\ carsOvertaken s' = 0%Z
  /\ gameActive s' = true
  /\ isPaused s' = isPaused s
  /\ session s' = (if isPaused s then Paused else Running).
Proof. cbv zeta. repeat split. Qed.

(** Restarting while the pause flag is set: everything is reset, and the
    session is Paused until the space bar is pressed. *)
Lemma restartGame_still_paused (s : State) :
  isPaused s = true ->
  let s' := step s ClickRestart in
  obstacles s' = []
  /\ position (player s') = origin
  /\ lane s' = 1%nat
  /\ (score s', elapsedTime s', lives s', carsOvertaken s')
     = (ofZ 0, ofZ 0, 3%Z, 0%Z)
  /\ session s' = Paused
  /\ session s' <> Running
  /\ (forall (deltaTime : number) (r : Random),
         animate deltaTime r s'
         = set_elapsedTime (elapsedTime s' + deltaTime) s')
  /\ session (step s' (KeyDown Space)) = Running.
Proof.
  intros P. cbv zeta. cbn [step].
  destruct (restartGame_resets s)
    as (Ho & Hp & Hl & _ & Hs & He & _ & Hv & Hc & Ha & Hpz & Hss).
  rewrite P in Hpz, Hss.
  split; [exact Ho|]. split; [exact Hp|]. split; [exact Hl|].
  split; [now rewrite Hs, He, Hv, Hc|].
  split; [exact Hss|].
  split; [rewrite Hss; discriminate|].
  split.
  - intros deltaTime r. unfold animate. rewrite Ha.
    apply (updateGame_frozen deltaTime r _ Hpz).
  - unfold session, onKeyDown. rewrite Ha, Hpz.
    cbn [negb andb gameActive isPaused set_isPaused]. now rewrite Ha.
Qed.

(** C7 on the code.  After that session the game is over with no life
    left.  A click on Restart then empties the obstacles, puts the vehicle
    back in the centre lane at the origin and resets score, time, lives
    and overtaken count to 0, 0, 3 and 0; but the pause flag that the
    fatal collision set is still set, so the session is Paused, not
    Running: each further frame only advances the clock, until the space
    bar is pressed. *)
Theorem restartGame_after_game_over :
  session gameOverState = GameOver
  /\ lives gameOverState = 0%Z
  /\ let s' := step gameOverState ClickRestart in
     obstacles s' = []
     /\ position (player s') = origin
     /\ lane s' = 1%nat
     /\ (score s', elapsedTime s', lives s', carsOvertaken s')
        = (ofZ 0, ofZ 0, 3%Z, 0%Z)
     /\ session s' = Paused
     /\ session s' <> Running
     /\ (forall (deltaTime : number) (r : Random),
            animate deltaTime r s'
            = set_elapsedTime (elapsedTime s' + deltaTime) s')
     /\ session (step s' (KeyDown Space)) = Running.
Proof.
  split; [vm_compute; reflexivity|]. split; [vm_compute; reflexivity|].
  apply restartGame_still_paused. vm_compute. reflexivity.
Qed.

(** * Further properties *)

(** ** The obstacle loop on the array *)

Lemma moveObstacles_app (d : number) (l1 l2 : list Object3D) :
  moveObstacles d (l1 ++ l2) = moveObstacles d l1 ++ moveObstacles d l2.
Proof.
  induction l1 as [|o rest IH]; [reflexivity|].
  cbn [app moveObstacles]. rewrite IH.
  destruct (_ <? cameraDistance); reflexivity.
Qed.

Lemma nth_error_middle (pre suf : list Object3D) (o : Object3D) :
  nth_error (pre ++ o :: suf) (length pre) = Some o.
Proof. induction pre; cbn; auto. Qed.

Lemma removeAt_middle (pre suf : list Object3D) (o : Object3D) :
  removeAt (length pre) (pre ++ o :: suf) = pre ++ suf.
Proof. induction pre; cbn; congruence. Qed.

Lemma replaceAt_middle (pre suf : list Object3D) (o o' : Object3D) :
  replaceAt (length pre) o' (pre ++ o :: suf) = pre ++ o' :: suf.
Proof. induction pre; cbn; congruence. Qed.

(** Once the indices above [i] are done, the loop turns the [i + 1]
    obstacles still to visit into those of them that stay on the road,
    moved, and leaves the others as they are. *)
Lemma moveLoop_prefix (d : number) (i : nat) :
  forall pre suf : list Object3D,
    length pre = S i ->
    moveLoop d i (pre ++ suf) = moveObstacles d pre ++ suf.
Proof.
  induction i as [|j IH]; intros pre suf Hlen.
  - destruct pre as [|o [|? ?]]; try discriminate.
    cbn [moveLoop app nth_error moveObstacles removeAt replaceAt].
    destruct (_ <? cameraDistance); reflexivity.
  - destruct (exists_last (l := pre)) as (pre' & o & ->);
      [intros ->; discriminate|].
    rewrite length_app in Hlen. cbn in Hlen.
    assert (Hj : length pre' = S j) by lia.
    rewrite <- app_assoc. cbn [app]. rewrite moveObstacles_app.
    cbn [moveLoop]. cbv zeta. rewrite <- Hj.
    rewrite nth_error_middle, removeAt_middle, replaceAt_middle.
    cbn [moveObstacles].
    destruct (_ <? cameraDistance); rewrite (IH pre' _ Hj);
      [now rewrite app_nil_r|].
    now rewrite <- app_assoc.
Qed.

(** X1. The in-place loop of [updateGame] over [obstacles], which runs from
    the last index down and splices while it iterates, visits every
    obstacle exactly once: it leaves the obstacles that are not behind the
    camera once moved, each moved by [moveDistance], in their order. *)
Theorem moveObstaclesInPlace_filter (d : number) (l : list Object3D) :
  moveObstaclesInPlace d l = moveObstacles d l
  /\ moveObstacles d l
     = filter (fun o => negb (posZ (position o) <? cameraDistance))
              (map (fun o => setZ (posZ (position o) - d) o) l).
Proof.
  split.
  - unfold moveObstaclesInPlace. destruct (length l) as [|n] eqn:E.
    + destruct l; [reflexivity|discriminate].
    + rewrite <- (app_nil_r l) at 1.
      rewrite (moveLoop_prefix d n l [] E). apply app_nil_r.
  - induction l as [|o rest IH]; [reflexivity|].
    cbn [moveObstacles map filter]. rewrite <- IH.
    destruct (_ <? cameraDistance); reflexivity.
Qed.

(** ** Invariants of a session *)

Lemma run_invariant (P : State -> Prop) :
  (forall s e, P s -> P (step s e)) ->
  forall es s, P s -> P (run es s).
Proof.
  intros Hstep es. induction es as [|e rest IH]; intros s H; [exact H|].
  cbn [run fold_left]. apply IH, Hstep, H.
Qed.

Lemma statusOf_updateSpeed (s : State) :
  statusOf (updateSpeed s) = statusOf s.
Proof. unfold statusOf, updateSpeed. stage_frame. Qed.

Lemma statusOf_jumpPhysics (s : State) :
  statusOf (jumpPhysics s) = statusOf s.
Proof. unfold statusOf, jumpPhysics. stage_frame. Qed.

Lemma statusOf_steer (s : State) : statusOf (steer s) = statusOf s.
Proof. reflexivity. Qed.

Lemma statusOf_updateScore (deltaTime : number) (s : State) :
  statusOf (updateScore deltaTime s) = statusOf s.
Proof. unfold statusOf, updateScore. stage_frame. Qed.

Lemma statusOf_scrollWorld (d : number) (r : Random) (s : State) :
  statusOf (scrollWorld d r s) = statusOf s.
Proof.
  unfold statusOf, scrollWorld, scrollScenery, spawnCheck, spawnObstacle.
  stage_frame.
Qed.

Lemma statusOf_handleCollision (o : Object3D) (s : State) :
  statusOf (handleCollision o s) = statusHit (statusOf s).
Proof.
  unfold statusOf, statusHit, handleCollision, gameOver.
  cbn [lives set_lives set_isPaused set_obstacles].
  destruct (lives s - 1 <=? 0)%Z; reflexivity.
Qed.

Lemma statusOf_checkCollisions (s : State) :
  statusOf (checkCollisions s) = statusOf s
  \/ statusOf (checkCollisions s) = statusHit (statusOf s).
Proof.
  unfold checkCollisions.
  destruct (isJumping s && (jumpHeight s >? ofZ 2)); [now left|].
  destruct (find _ _) as [o|]; [right|now left].
  apply statusOf_handleCollision.
Qed.

(** A frame leaves the flags and counters alone, or is one collision. *)
Lemma statusOf_updateGame (deltaTime : number) (r : Random) (s : State) :
  statusOf (updateGame deltaTime r s) = statusOf s
  \/ (isPaused s = false
      /\ statusOf (updateGame deltaTime r s) = statusHit (statusOf s)).
Proof.
  unfold updateGame. cbn [isPaused set_elapsedTime].
  destruct (isPaused s) eqn:Hp; [now left|].
  unfold simulate, beforeScroll. cbv zeta.
  rewrite statusOf_scrollWorld, statusOf_updateScore.
  set (s0 := steer _).
  assert (E : statusOf s0 = statusOf s).
  { unfold s0.
    now rewrite statusOf_steer, statusOf_jumpPhysics, statusOf_updateSpeed. }
  destruct (statusOf_checkCollisions s0) as [H|H]; rewrite H, E; auto.
Qed.

(** A key press touches neither the lives nor the two session flags. *)
Lemma statusOf_onKeyDown (k : Key) (s : State) :
  (lives (onKeyDown k s), gameActive (onKeyDown k s),
   gameOverScreen (onKeyDown k s))
  = (lives s, gameActive s, gameOverScreen s).
Proof.
  unfold onKeyDown, startJump.
  destruct (negb (gameActive s) && negb (isPaused s)); [reflexivity|].
  destruct (isPaused s), k; cbn; split_ifs; reflexivity.
Qed.

Lemma lane_onKeyDown (k : Key) (s : State) :
  (lane s < 3)%nat -> (lane (onKeyDown k s) < 3)%nat.
Proof.
  intros H. unfold onKeyDown, startJump.
  destruct (negb (gameActive s) && negb (isPaused s)); [exact H|].
  destruct (isPaused s); [destruct k; exact H|].
  destruct k; try exact H.
  - destruct (Nat.ltb_spec 0 (lane s)); cbn [lane set_lane]; lia.
  - destruct (Nat.ltb_spec (lane s) 2); cbn [lane set_lane]; lia.
  - cbn [isJumping set_speed]. destruct (isJumping s); exact H.
  - destruct (isJumping s); exact H.
Qed.

(** X2. Over any session the lane is one of the three lanes, so that the
    steering target [lanePositions[lane]] is never undefined: the arrow
    keys stop at lanes 0 and 2, and nothing else moves the lane but a
    restart, to the centre. *)
Theorem lane_in_range
        (segs stripes : list RoadItem) (ts : list Tree) (bs : list RoadItem)
        (es : list Event) :
  let s := run es (initialState segs stripes ts bs) in
  (lane s < 3)%nat /\ In (lanePosition (lane s)) lanePositions.
Proof.
  intros s.
  assert (H : (lane s < 3)%nat).
  { apply (run_invariant (fun s => (lane s < 3)%nat)); [|cbn; lia].
    intros s0 e H0. destruct e as [deltaTime r|k| |]; cbn [step].
    - unfold animate. destruct (gameActive s0); [|exact H0].
      destruct (statusOf_updateGame deltaTime r s0) as [E|[_ E]];
        unfold statusOf, statusHit in E;
        [|destruct (lives s0 - 1 <=? 0)%Z];
        injection E as _ _ _ _ ->; exact H0.
    - now apply lane_onKeyDown.
    - exact H0.
    - cbn. lia. }
  split; [exact H|].
  destruct (lane s) as [|[|[|n]]]; [| | |lia]; cbn; auto.
Qed.

Lemma livesOk_step (s : State) (e : Event) : livesOk s -> livesOk (step s e).
Proof.
  intros H. destruct e as [deltaTime r|k| |]; cbn [step].
  - unfold animate. destruct (gameActive s) eqn:Eg; [|exact H].
    destruct H as (Hr & Ha & Ho). specialize (Ha Eg).
    destruct (statusOf_updateGame deltaTime r s) as [E|[_ E]];
      unfold statusOf, statusHit, livesOk in *.
    + injection E as -> -> -> _ _. rewrite Eg.
      repeat split; auto; try lia; try discriminate.
    + rewrite Eg in E. destruct (Z.leb_spec (lives s - 1) 0);
        injection E as -> -> -> _ _; repeat split; try lia; try discriminate.
  - pose proof (statusOf_onKeyDown k s) as E. unfold livesOk in *.
    injection E as -> -> ->. exact H.
  - unfold livesOk. cbn. repeat split; try lia; discriminate.
  - unfold livesOk. cbn. repeat split; try lia; discriminate.
Qed.

(** X3. Over any session [lives] stays between 0 and 3; while the game is
    running or paused at least one life is left, and the session is
    GameOver only with no life left: a collision takes one life, and the
    one that takes the last ends the game. *)
Theorem lives_in_range
        (segs stripes : list RoadItem) (ts : list Tree) (bs : list RoadItem)
        (es : list Event) :
  let s := run es (initialState segs stripes ts bs) in
  (0 <= lives s <= 3)%Z
  /\ (session s = Running \/ session s = Paused -> (1 <= lives s)%Z)
  /\ (session s = GameOver -> lives s = 0%Z).
Proof.
  intros s.
  assert (H : livesOk s).
  { apply (run_invariant livesOk); [apply livesOk_step|].
    unfold livesOk. cbn. repeat split; try lia; discriminate. }
  destruct H as (Hr & Ha & Ho). split; [exact Hr|].
  unfold session.
  destruct (gameActive s), (isPaused s), (gameOverScreen s);
    split; intros H; try discriminate; auto;
    destruct H; discriminate.
Qed.

Lemma onArc_arcOk (j : bool * number * number) : onArc j -> arcOk j = true.
Proof.
  intros (k & Hk & ->).
  assert (A : forallb (fun k => arcOk (Nat.iter k jumpStep takeOff))
                      (seq 0 (S arcFrames)) = true)
    by (vm_compute; reflexivity).
  rewrite forallb_forall in A. apply A, in_seq. lia.
Qed.

Lemma onArc_jumpStep (j : bool * number * number) :
  onArc j -> onArc (jumpStep j).
Proof.
  intros (k & Hk & ->).
  destruct (Nat.eq_dec k arcFrames) as [->|Hne].
  - exists arcFrames. split; [lia|]. vm_compute. reflexivity.
  - exists (S k). split; [lia|reflexivity].
Qed.

Lemma jumpOf_onKeyDown (k : Key) (s : State) :
  jumpOf (onKeyDown k s) = jumpOf s \/ jumpOf (onKeyDown k s) = takeOff.
Proof.
  unfold onKeyDown, startJump.
  destruct (negb (gameActive s) && negb (isPaused s)); [now left|].
  destruct (isPaused s); [destruct k; now left|].
  destruct k; cbn [isJumping set_speed]; split_ifs;
    (now left) || (now right).
Qed.

Lemma onArc_step (s : State) (e : Event) :
  onArc (jumpOf s) -> onArc (jumpOf (step s e)).
Proof.
  intros H. destruct e as [deltaTime r|k| |]; cbn [step]; try exact H.
  - unfold animate. destruct (gameActive s); [|exact H].
    destruct (isPaused s) eqn:Hp.
    + rewrite (updateGame_frozen deltaTime r s Hp). exact H.
    + rewrite (jumpOf_updateGame deltaTime r s Hp). now apply onArc_jumpStep.
  - destruct (jumpOf_onKeyDown k s) as [-> | ->]; [exact H|].
    exists 0%nat. split; [unfold arcFrames; lia|reflexivity].
Qed.

(** X4. Over any session the vertical offset of the vehicle stays between 0
    and [maxJumpHeight], and whenever the vehicle is not jumping the offset
    and the vertical velocity are exactly 0: the jump variables are always
    those of some frame of the arc of a jump. *)
Theorem jump_height_in_range
        (segs stripes : list RoadItem) (ts : list Tree) (bs : list RoadItem)
        (es : list Event) :
  let s := run es (initialState segs stripes ts bs) in
  (ofZ 0 <=? jumpHeight s) = true
  /\ (jumpHeight s <=? maxJumpHeight) = true
  /\ (isJumping s = false ->
      jumpHeight s = ofZ 0 /\ jumpVelocity s = ofZ 0).
Proof.
  intros s.
  assert (H : onArc (jumpOf s)).
  { apply (run_invariant (fun s => onArc (jumpOf s))); [apply onArc_step|].
    exists arcFrames. split; [lia|]. vm_compute. reflexivity. }
  apply onArc_arcOk in H. unfold arcOk, jumpOf in H.
  apply andb_prop in H. destruct H as [H H3].
  apply andb_prop in H. destruct H as [H1 H2].
  split; [exact H1|]. split; [exact H2|].
  intros Hj. rewrite Hj in H3. cbn [orb] in H3.
  destruct (jumpHeight s) as [[]| | |]; try discriminate.
  destruct (jumpVelocity s) as [[]| | |]; try discriminate.
  split; reflexivity.
Qed.

Lemma moveObstacles_notBehind (d : number) (l : list Object3D) :
  Forall notBehind (moveObstacles d l).
Proof.
  induction l as [|o rest IH]; cbn [moveObstacles]; [constructor|].
  destruct (_ <? cameraDistance) eqn:E; [exact IH|].
  constructor; [exact E|exact IH].
Qed.

Lemma spawned_notBehind (r : Random) (s : State) : notBehind (spawned r s).
Proof.
  unfold notBehind, spawned, spawnObstacle.
  destruct (typeDraw r <? dec 7 1); [|destruct (typeDraw r <? dec 85 2)];
    cbn [obstacles set_obstacles set_nextId]; rewrite last_last;
    reflexivity.
Qed.

Lemma obstacles_onKeyDown (k : Key) (s : State) :
  obstacles (onKeyDown k s) = obstacles s.
Proof.
  pose proof (worldOf_onKeyDown k s) as E. unfold worldOf in E.
  now injection E.
Qed.

Lemma notBehind_step (s : State) (e : Event) :
  Forall notBehind (obstacles s) -> Forall notBehind (obstacles (step s e)).
Proof.
  intros H. destruct e as [deltaTime r|k| |]; cbn [step].
  - unfold animate. destruct (gameActive s); [|exact H].
    destruct (isPaused s) eqn:Hp.
    + rewrite (updateGame_frozen deltaTime r s Hp). exact H.
    + destruct (spawn_updateGame deltaTime r s Hp) as (s1 & E1 & Eo & _).
      rewrite Eo, E1. unfold frameRoad.
      destruct (frameFires deltaTime s);
        [apply Forall_app; split|]; try apply moveObstacles_notBehind.
      constructor; [apply spawned_notBehind|constructor].
  - now rewrite obstacles_onKeyDown.
  - exact H.
  - constructor.
Qed.

(** X5. Over any session no live obstacle is behind the camera: the frame
    that moves an obstacle behind it removes it in the same loop, and a
    spawn is far ahead.  Obstacles are never recycled. *)
Theorem obstacles_not_behind_camera
        (segs stripes : list RoadItem) (ts : list Tree) (bs : list RoadItem)
        (es : list Event) :
  let s := run es (initialState segs stripes ts bs) in
  Forall notBehind (obstacles s).
Proof.
  apply (run_invariant (fun s => Forall notBehind (obstacles s)));
    [apply notBehind_step|constructor].
Qed.

(** ** The collision scan *)

Lemma find_first {A : Type} (f : A -> bool) (l : list A) (x : A) :
  find f l = Some x ->
  exists before after,
    l = before ++ x :: after
    /\ Forall (fun y => f y = false) before
    /\ f x = true.
Proof.
  induction l as [|y rest IH]; cbn; [discriminate|].
  destruct (f y) eqn:E.
  - intros [= ->]. exists [], rest. repeat split; auto.
  - intros H. destruct (IH H) as (before & after & -> & Hb & Hx).
    exists (y :: before), after. repeat split; auto.
Qed.

Lemma find_none {A : Type} (f : A -> bool) (l : list A) :
  find f l = None -> Forall (fun y => f y = false) l.
Proof.
  induction l as [|y rest IH]; cbn; [constructor|].
  destruct (f y) eqn:E; [discriminate|]. intros H. constructor; auto.
Qed.

(** Among distinct objects, an object has one place in the array. *)
Lemma split_unique (o : Object3D) (b1 a1 b2 a2 : list Object3D) :
  NoDup (map uid (b1 ++ o :: a1)) ->
  b1 ++ o :: a1 = b2 ++ o :: a2 -> b1 = b2 /\ a1 = a2.
Proof.
  revert b2. induction b1 as [|x b1 IH]; intros [|y b2] Hnd E; cbn in *.
  - injection E as ->. now split.
  - injection E as -> ->. inversion Hnd as [|? ? Hfresh _]; subst.
    exfalso. apply Hfresh. rewrite map_app. apply in_or_app. right.
    now left.
  - injection E as -> <-. inversion Hnd as [|? ? Hfresh _]; subst.
    exfalso. apply Hfresh. rewrite map_app. apply in_or_app. right.
    now left.
  - injection E as -> E. inversion Hnd as [|? ? _ Hrest]; subst.
    destruct (IH b2 Hrest E) as [-> ->]. now split.
Qed.

(** X6. Without jump immunity the collision scan handles at most one
    obstacle per frame, the first in array order (the order of spawning)
    that overlaps the player: either nothing overlaps and the state is
    unchanged, or that obstacle alone is removed, one life is lost and the
    pause flag is set. *)
Theorem checkCollisions_first_only (s : State) :
  NoDup (map uid (obstacles s)) ->
  isJumping s && (jumpHeight s >? ofZ 2) = false ->
  (Forall (fun o => overlaps (player s) o = false) (obstacles s)
   /\ checkCollisions s = s)
  \/ (exists before o after,
         obstacles s = before ++ o :: after
         /\ Forall (fun o' => overlaps (player s) o' = false) before
         /\ overlaps (player s) o = true
         /\ obstacles (checkCollisions s) = before ++ after
         /\ lives (checkCollisions s) = (lives s - 1)%Z
         /\ isPaused (checkCollisions s) = true).
Proof.
  intros Hnd Hj. unfold checkCollisions. rewrite Hj.
  destruct (find (overlaps (player s)) (obstacles s)) as [o|] eqn:Ef.
  - right. destruct (find_first _ _ _ Ef) as (before & after & El & Hb & Ho).
    exists before, o, after.
    split; [exact El|]. split; [exact Hb|]. split; [exact Ho|].
    assert (Hin : In o (obstacles s)).
    { rewrite El. apply in_or_app. right. now left. }
    destruct (splice1_indexOf o (obstacles s) Hin Hnd)
      as (b2 & a2 & E2 & Es).
    rewrite El in Hnd.
    destruct (split_unique o before after b2 a2 Hnd) as [-> ->];
      [congruence|].
    unfold handleCollision, gameOver. cbn [lives set_lives set_isPaused].
    destruct (_ <=? 0)%Z; (split; [exact Es|split; reflexivity]).
  - left. split; [now apply find_none|reflexivity].
Qed.

(** [sampleRunning], where the car stands on the player. *)
Lemma checkCollisions_first_only_witness :
  (Forall (fun o => overlaps (player sampleRunning) o = false)
          (obstacles sampleRunning)
   /\ checkCollisions sampleRunning = sampleRunning)
  \/ (exists before o after,
         obstacles sampleRunning = before ++ o :: after
         /\ Forall (fun o' => overlaps (player sampleRunning) o' = false)
                   before
         /\ overlaps (player sampleRunning) o = true
         /\ obstacles (checkCollisions sampleRunning) = before ++ after
         /\ lives (checkCollisions sampleRunning)
            = (lives sampleRunning - 1)%Z
         /\ isPaused (checkCollisions sampleRunning) = true).
Proof.
  apply (checkCollisions_first_only sampleRunning).
  - repeat constructor. intros [].
  - reflexivity.
Defined.

(** X7. [handleCollision] for an object that is not in [obstacles]:
    [indexOf] answers -1 and [splice(-1, 1)] removes the last obstacle of
    the array instead. *)
Theorem handleCollision_stranger (o : Object3D) (s : State) :
  ~ In (uid o) (map uid (obstacles s)) ->
  obstacles (handleCollision o s) = removelast (obstacles s).
Proof.
  intros Hn.
  assert (E : indexOf o (obstacles s) = None).
  { induction (obstacles s) as [|o' rest IH]; cbn; [reflexivity|].
    destruct (Nat.eqb_spec (uid o') (uid o)) as [E|_].
    - exfalso. apply Hn. now left.
    - rewrite IH; [reflexivity|]. intros Hin. apply Hn. now right. }
  unfold handleCollision, gameOver. rewrite E.
  cbn [lives set_lives set_isPaused set_obstacles obstacles splice1].
  destruct (_ <=? 0)%Z; reflexivity.
Qed.

Lemma handleCollision_stranger_witness :
  obstacles (handleCollision (player sampleRunning) sampleRunning) = [].
Proof.
  apply (handleCollision_stranger (player sampleRunning) sampleRunning).
  cbn. intros [H|[]]. discriminate H.
Defined.

(** ** Keys and session states *)

(** X8. A jump key pressed while the vehicle is jumping starts nothing:
    ['j'] leaves the state as it is, in every session state, and the space
    bar of a running session only brakes. *)
Theorem jump_key_in_flight (s : State) :
  isJumping s = true ->
  onKeyDown KeyJ s = s
  /\ (session s = Running ->
      onKeyDown Space s
      = set_speed (Math_max (ofZ 0) (speed s - brakeForce * ofZ 5)) s).
Proof.
  intros Hj. split.
  - unfold onKeyDown, startJump. rewrite Hj.
    destruct (negb (gameActive s) && negb (isPaused s)); [reflexivity|].
    destruct (isPaused s); reflexivity.
  - intros Hs. destruct (session_Running s Hs) as [Ha Hp].
    unfold onKeyDown, startJump. rewrite Ha, Hp. cbn [negb andb].
    cbn [isJumping set_speed]. now rewrite Hj.
Qed.

Lemma jump_key_in_flight_witness :
  onKeyDown KeyJ sampleJumping = sampleJumping.
Proof.
  exact (proj1 (jump_key_in_flight sampleJumping eq_refl)).
Defined.

(** X9. A collision that leaves a life pauses the session: frames then only
    advance the clock, every key but the space bar is ignored, and the
    space bar clears the pause flag and does nothing else (it neither
    brakes nor jumps), which puts the session back to Running. *)
Theorem collision_pause_resume (o : Object3D) (s : State) :
  gameActive s = true ->
  (2 <= lives s)%Z ->
  let s1 := handleCollision o s in
  session s1 = Paused
  /\ (forall (deltaTime : number) (r : Random),
         animate deltaTime r s1
         = set_elapsedTime (elapsedTime s1 + deltaTime) s1)
  /\ (forall k, k <> Space -> onKeyDown k s1 = s1)
  /\ onKeyDown Space s1 = set_isPaused false s1
  /\ session (onKeyDown Space s1) = Running.
Proof.
  intros Ha Hl s1.
  assert (Hg : gameActive s1 = true /\ isPaused s1 = true).
  { unfold s1, handleCollision, gameOver.
    cbn [lives set_lives set_isPaused set_obstacles].
    destruct (Z.leb_spec (lives s - 1) 0); [lia|]. split; [exact Ha|].
    reflexivity. }
  destruct Hg as [Ha1 Hp1]. clearbody s1.
  split; [unfold session; now rewrite Ha1, Hp1|].
  split.
  { intros deltaTime r. unfold animate. rewrite Ha1.
    apply (updateGame_frozen deltaTime r s1 Hp1). }
  assert (Hk : forall k, onKeyDown k s1
                         = match k with Space => set_isPaused false s1
                                      | _ => s1 end).
  { intros k. unfold onKeyDown. now rewrite Ha1, Hp1. }
  split; [intros k Hne; rewrite Hk; destruct k; congruence|].
  split; [apply Hk|]. rewrite Hk. unfold session.
  cbn [gameActive isPaused set_isPaused]. now rewrite Ha1.
Qed.

Lemma collision_pause_resume_witness :
  session (onKeyDown Space (handleCollision carAhead sampleRunning))
  = Running.
Proof.
  apply (collision_pause_resume carAhead sampleRunning).
  - reflexivity.
  - vm_compute. discriminate.
Defined.



(** X11. A car that has reached its lane stays exactly there: with the
    player at the lateral offset of the target lane, the steering step
    leaves the state unchanged. *)
Theorem steer_in_lane (s : State) :
  (lane s < 3)%nat ->
  posX (position (player s)) = lanePosition (lane s) ->
  steer s = s.
Proof.
  intros Hl Hx. unfold steer. rewrite Hx.
  assert (E : lanePosition (lane s)
              + (lanePosition (lane s) - lanePosition (lane s)) * dec 1 1
              = lanePosition (lane s)).
  { destruct (lane s) as [|[|[|n]]]; [| | |lia]; vm_compute; reflexivity. }
  rewrite E, <- Hx.
  destruct s as [? ? ? ? ? ? ? ? ? ? ? ? ? [u [x y z] ud] ? ? ? ? ? ? ? ?].
  reflexivity.
Qed.

Lemma steer_in_lane_witness : steer sampleStarted = sampleStarted.
Proof. apply (steer_in_lane sampleStarted); [cbn; lia|reflexivity]. Defined.

(** ** Speed over a session *)

Lemma sub_finite_not_nan (x y : number) :
  isNaN x = false -> isFinite y = true -> isNaN (x - y) = false.
Proof.
  destruct x as [sx|sx| |sx mx ex], y as [sy|sy| |sy my ey];
    cbn; try discriminate; try reflexivity; intros _ _.
  apply isNaN_false, binary_normalize_not_nan.
Qed.

Lemma Math_max_zero (x : number) :
  isNaN x = false ->
  isNaN (Math_max (ofZ 0) x) = false
  /\ (ofZ 0 <=? Math_max (ofZ 0) x) = true.
Proof.
  intros Hx. unfold Math_max. rewrite Hx.
  change (isNaN (ofZ 0)) with false. cbn [orb].
  destruct (ofZ 0 <? x) eqn:E1; [split; [exact Hx|now apply ltb_leb]|].
  destruct (x <? ofZ 0); split; reflexivity.
Qed.

Lemma nextSpeed_range (v : number) :
  isNaN v = false -> inSpeedRange (nextSpeed v) = true.
Proof.
  intros H. unfold nextSpeed. apply clampSpeed_range.
  apply mul_finite_not_nan; [|reflexivity].
  destruct (v <? maxSpeed * dec 4 1); [|exact H].
  apply add_finite_not_nan; [exact H|reflexivity].
Qed.

Lemma speed_onKeyDown (k : Key) (s : State) :
  speed (onKeyDown k s) = speed s
  \/ (session s = Running
      /\ ((k = ArrowUp
           /\ speed (onKeyDown k s)
              = Math_min maxSpeed (speed s + acceleration * ofZ 5))
          \/ ((k = ArrowDown \/ k = Space)
              /\ speed (onKeyDown k s)
                 = Math_max (ofZ 0) (speed s - brakeForce * ofZ 5)))).
Proof.
  unfold onKeyDown, startJump, session.
  destruct (gameActive s); cbn [negb andb];
    destruct (isPaused s); cbn [negb]; try (destruct k; now left).
  destruct k; cbn [isJumping set_speed]; split_ifs;
    try (now left); right; (split; [reflexivity|]); auto.
Qed.

Lemma speed_number_step (s : State) (e : Event) :
  isNaN (speed s) = false -> isNaN (speed (step s e)) = false.
Proof.
  intros H. destruct e as [deltaTime r|k| |]; cbn [step];
    try reflexivity.
  - unfold animate. destruct (gameActive s); [|exact H].
    destruct (isPaused s) eqn:Hp.
    + rewrite (updateGame_frozen deltaTime r s Hp). exact H.
    + rewrite (speed_updateGame deltaTime r s Hp).
      pose proof (nextSpeed_range (speed s) H) as R.
      apply andb_prop in R. destruct R as [R _].
      now apply leb_not_nan in R.
  - destruct (speed_onKeyDown k s)
      as [-> | (_ & [(_ & ->) | (_ & ->)])]; [exact H| |].
    + apply Math_min_maxSpeed, add_finite_not_nan; [exact H|reflexivity].
    + apply Math_max_zero, sub_finite_not_nan; [exact H|reflexivity].
Qed.

(** X12. Over any session the speed is a number (never NaN), and every
    running frame leaves it in [[0, maxSpeed]], whatever keys were pressed
    before and whatever the frame times. *)
Theorem speed_in_range_after_frame
        (segs stripes : list RoadItem) (ts : list Tree) (bs : list RoadItem)
        (es : list Event) (deltaTime : number) (r : Random) :
  let s := run es (initialState segs stripes ts bs) in
  isNaN (speed s) = false
  /\ (isPaused s = false ->
      inSpeedRange (speed (updateGame deltaTime r s)) = true).
Proof.
  intros s.
  assert (H : isNaN (speed s) = false).
  { apply (run_invariant (fun s => isNaN (speed s) = false));
      [apply speed_number_step|reflexivity]. }
  split; [exact H|]. intros Hp.
  rewrite (speed_updateGame deltaTime r s Hp). now apply nextSpeed_range.
Qed.

(** After the start and one press on the throttle, a frame of 16 ms. *)
Lemma speed_in_range_after_frame_witness :
  let s := run [ClickStart; KeyDown ArrowUp] (initialState [] [] [] []) in
  isPaused s = false
  /\ inSpeedRange (speed (updateGame (dec 16 3) centreDraws s)) = true.
Proof.
  split; [reflexivity|].
  apply (speed_in_range_after_frame [] [] [] []
           [ClickStart; KeyDown ArrowUp] (dec 16 3) centreDraws).
  reflexivity.
Defined.

(** X13. In a running session the throttle never takes the speed above
    [maxSpeed] and the brake (arrow down or space bar) never takes it
    below 0. *)
Theorem throttle_brake_clamped
        (segs stripes : list RoadItem) (ts : list Tree) (bs : list RoadItem)
        (es : list Event) :
  let s := run es (initialState segs stripes ts bs) in
  session s = Running ->
  (speed (onKeyDown ArrowUp s) <=? maxSpeed) = true
  /\ (ofZ 0 <=? speed (onKeyDown ArrowDown s)) = true
  /\ (ofZ 0 <=? speed (onKeyDown Space s)) = true.
Proof.
  intros s Hs.
  assert (H : isNaN (speed s) = false).
  { apply (run_invariant (fun s => isNaN (speed s) = false));
      [apply speed_number_step|reflexivity]. }
  destruct (session_Running s Hs) as [Ha Hp].
  assert (Hup : speed (onKeyDown ArrowUp s)
                = Math_min maxSpeed (speed s + acceleration * ofZ 5)).
  { unfold onKeyDown. now rewrite Ha, Hp. }
  assert (Hdown : speed (onKeyDown ArrowDown s)
                  = Math_max (ofZ 0) (speed s - brakeForce * ofZ 5)).
  { unfold onKeyDown. now rewrite Ha, Hp. }
  assert (Hsp : speed (onKeyDown Space s)
                = Math_max (ofZ 0) (speed s - brakeForce * ofZ 5)).
  { unfold onKeyDown, startJump. rewrite Ha, Hp. cbn [negb andb].
    cbn [isJumping set_speed]. destruct (isJumping s); reflexivity. }
  rewrite Hup, Hdown, Hsp.
  split; [apply Math_min_maxSpeed, add_finite_not_nan;
          [exact H|reflexivity]|].
  split; apply Math_max_zero, sub_finite_not_nan; try exact H; reflexivity.
Qed.

Lemma throttle_brake_clamped_witness :
  let s := run [ClickStart; KeyDown ArrowUp] (initialState [] [] [] []) in
  session s = Running
  /\ (ofZ 0 <=? speed (onKeyDown ArrowDown s)) = true.
Proof.
  split; [reflexivity|].
  apply (throttle_brake_clamped [] [] [] [] [ClickStart; KeyDown ArrowUp]).
  reflexivity.
Defined.

(** ** High scores *)

Lemma insertByScore_perm (e : HighScore) (l : list HighScore) :
  Permutation (insertByScore e l) (e :: l).
Proof.
  induction l as [|y rest IH]; cbn [insertByScore]; [reflexivity|].
  destruct (entryScore y <=? entryScore e)%Z; [reflexivity|].
  rewrite IH. apply perm_swap.
Qed.

Lemma sortByScore_perm (l : list HighScore) :
  Permutation (sortByScore l) l.
Proof.
  induction l as [|e rest IH]; [reflexivity|].
  cbn [sortByScore fold_right]. fold (sortByScore rest).
  rewrite insertByScore_perm. now constructor.
Qed.

Lemma insertByScore_sorted (e : HighScore) (l : list HighScore) :
  StronglySorted ranksAbove l -> StronglySorted ranksAbove (insertByScore e l).
Proof.
  induction l as [|y rest IH]; cbn [insertByScore]; intros Hs.
  - repeat constructor.
  - inversion Hs as [|? ? Hrest Hall]; subst.
    destruct (Z.leb_spec (entryScore y) (entryScore e)).
    + constructor; [exact Hs|]. constructor; [exact H|].
      rewrite Forall_forall in *. intros z Hz. specialize (Hall z Hz).
      unfold ranksAbove in *. lia.
    + constructor; [now apply IH|].
      rewrite Forall_forall in *. intros z Hz.
      apply (Permutation_in _ (insertByScore_perm e rest)) in Hz.
      destruct Hz as [<-|Hz]; [unfold ranksAbove; lia|now apply Hall].
Qed.

Lemma sortByScore_sorted (l : list HighScore) :
  StronglySorted ranksAbove (sortByScore l).
Proof.
  induction l as [|e rest IH]; [constructor|].
  cbn [sortByScore fold_right]. now apply insertByScore_sorted.
Qed.

(** Sorting a sorted list changes nothing: entries that tie keep their
    order. *)
Lemma sortByScore_sorted_id (l : list HighScore) :
  StronglySorted ranksAbove l -> sortByScore l = l.
Proof.
  induction 1 as [|e rest Hrest IH Hall]; [reflexivity|].
  cbn [sortByScore fold_right]. fold (sortByScore rest). rewrite IH.
  destruct rest as [|y rest']; [reflexivity|]. cbn [insertByScore].
  inversion Hall as [|? ? Hy _]; subst. unfold ranksAbove in Hy.
  destruct (Z.leb_spec (entryScore y) (entryScore e)); [reflexivity|lia].
Qed.

Lemma StronglySorted_app_cross (l1 l2 : list HighScore) :
  StronglySorted ranksAbove (l1 ++ l2) ->
  forall a b, In a l1 -> In b l2 -> ranksAbove a b.
Proof.
  induction l1 as [|x l1 IH]; cbn; intros Hs a b Ha Hb; [contradiction|].
  inversion Hs as [|? ? Hrest Hall]; subst.
  destruct Ha as [<-|Ha].
  - rewrite Forall_forall in Hall. apply Hall, in_or_app. now right.
  - now apply IH.
Qed.

(** X14. Saving a score leaves a board of at most five entries, sorted from
    the highest score down, made of the five best of the old entries and
    the new one: what is kept and what is dropped together are the old
    board and the new entry, and nothing dropped scores more than
    something kept. *)
Theorem saveHighScore_top_five
        (name : String.string) (sc : number) (n : Z)
        (highScores : list HighScore) :
  Math_floor sc = Some n ->
  exists kept dropped,
    saveHighScore name sc highScores = Some kept
    /\ length kept = Nat.min 5 (S (length highScores))
    /\ StronglySorted ranksAbove kept
    /\ Permutation (kept ++ dropped) (highScores ++ [mkHighScore name n])
    /\ (forall k d, In k kept -> In d dropped -> ranksAbove k d).
Proof.
  intros Hf. unfold saveHighScore. rewrite Hf. cbv zeta.
  set (all := highScores ++ [mkHighScore name n]).
  pose proof (sortByScore_sorted all) as Hs.
  pose proof (sortByScore_perm all) as Hp.
  assert (Hlen : length (sortByScore all) = S (length highScores)).
  { rewrite (Permutation_length Hp). unfold all.
    rewrite length_app. cbn. lia. }
  exists (firstn 5 (sortByScore all)), (skipn 5 (sortByScore all)).
  split.
  { destruct (Nat.ltb_spec 5 (length (sortByScore all))); [reflexivity|].
    now rewrite firstn_all2. }
  split; [rewrite length_firstn, Hlen; reflexivity|].
  rewrite <- (firstn_skipn 5 (sortByScore all)) in Hs.
  split.
  { clear - Hs. revert Hs.
    generalize (firstn 5 (sortByScore all)) (skipn 5 (sortByScore all)).
    intros l1 l2. induction l1 as [|x l1 IH]; cbn; intros Hs;
      [constructor|].
    inversion Hs as [|? ? Hrest Hall]; subst. constructor; [auto|].
    rewrite Forall_forall in *. intros z Hz. apply Hall, in_or_app.
    now left. }
  split; [now rewrite firstn_skipn|].
  now apply StronglySorted_app_cross.
Qed.

Lemma saveHighScore_top_five_witness :
  exists kept,
    saveHighScore String.EmptyString (dec 7005 1) sampleBoard = Some kept
    /\ map entryScore kept = [900; 700; 700; 700; 300]%Z.
Proof.
  destruct (saveHighScore_top_five String.EmptyString (dec 7005 1) 700
              sampleBoard) as (kept & dropped & E & _).
  - vm_compute. reflexivity.
  - exists kept. split; [exact E|].
    vm_compute in E. injection E as <-. reflexivity.
Defined.

(** X15. A score that does not beat the fifth place of a full board does not
    enter it, even when it ties: the board is unchanged. *)
Theorem saveHighScore_tie_dropped
        (name : String.string) (sc : number) (n : Z)
        (highScores : list HighScore) :
  Math_floor sc = Some n ->
  length highScores = 5%nat ->
  StronglySorted ranksAbove highScores ->
  Forall (fun h => (n <= entryScore h)%Z) highScores ->
  saveHighScore name sc highScores = Some highScores.
Proof.
  intros Hf Hlen Hs Hall. unfold saveHighScore. rewrite Hf. cbv zeta.
  assert (Hs' : StronglySorted ranksAbove
                  (highScores ++ [mkHighScore name n])).
  { clear Hlen. induction Hs as [|e rest Hrest IH He]; cbn.
    - repeat constructor.
    - inversion Hall as [|? ? Hn Hall']; subst.
      constructor; [now apply IH|].
      apply Forall_app. split; [exact He|].
      constructor; [exact Hn|constructor]. }
  rewrite (sortByScore_sorted_id _ Hs'), length_app, Hlen.
  cbn [length Nat.add Nat.ltb Nat.leb].
  rewrite <- Hlen. now rewrite firstn_app, Nat.sub_diag, firstn_all, app_nil_r.
Qed.

Lemma saveHighScore_tie_dropped_witness :
  saveHighScore String.EmptyString (dec 1009 1) sampleBoard
  = Some sampleBoard.
Proof.
  apply (saveHighScore_tie_dropped String.EmptyString (dec 1009 1) 100).
  - vm_compute. reflexivity.
  - reflexivity.
  - unfold sampleBoard, ranksAbove.
    repeat (constructor; [|repeat constructor; cbn; lia]). constructor.
  - unfold sampleBoard. repeat constructor; cbn; lia.
Defined.

(** ** The road and the scenery *)

Lemma roadSegmentsFrom_enough (n : nat) : forall (i : number) (k : nat),
  segmentsDoneWithin n i = true ->
  roadSegmentsFrom (n + k) i = roadSegmentsFrom n i.
Proof.
  induction n as [|n IH]; intros i k H; cbn [segmentsDoneWithin] in H.
  - destruct (i <? segmentCount) eqn:E; [discriminate|].
    cbn [Nat.add roadSegmentsFrom]. destruct k; cbn [roadSegmentsFrom];
      [reflexivity|now rewrite E].
  - cbn [Nat.add roadSegmentsFrom].
    destruct (i <? segmentCount); [|reflexivity].
    now rewrite IH.
Qed.

Lemma roadStripesFrom_enough (n : nat) : forall (z : number) (k : nat),
  stripesDoneWithin n z = true ->
  roadStripesFrom (n + k) z = roadStripesFrom n z.
Proof.
  induction n as [|n IH]; intros z k H; cbn [stripesDoneWithin] in H.
  - destruct (z <? roadLength) eqn:E; [discriminate|].
    cbn [Nat.add roadStripesFrom]. destruct k; cbn [roadStripesFrom];
      [reflexivity|now rewrite E].
  - cbn [Nat.add roadStripesFrom].
    destruct (z <? roadLength); [|reflexivity].
    now rewrite IH.
Qed.

(** X16. [createRoad] lays out one loop of road.  Both of its loops end by
    their own test after 100 turns: they give 100 segments and 100
    stripes, the [k]-th at [z = 20 k], from 0 to 1980, a segment's mesh
    standing half a segment further. *)
Theorem createRoad_layout (fuel : nat) :
  (100 <= fuel)%nat ->
  roadSegmentsFrom fuel (ofZ 0)
  = map (fun k => mkRoadItem (ofZ (20 * Z.of_nat k + 10))
                             (ofZ (20 * Z.of_nat k)))
        (seq 0 100)
  /\ roadStripesFrom fuel (ofZ 0)
     = map (fun k => mkRoadItem (ofZ (20 * Z.of_nat k))
                                (ofZ (20 * Z.of_nat k)))
           (seq 0 100).
Proof.
  intros H. replace fuel with (100 + (fuel - 100))%nat by lia.
  rewrite roadSegmentsFrom_enough, roadStripesFrom_enough;
    try (vm_compute; reflexivity).
  split; vm_compute; reflexivity.
Qed.

Lemma createRoad_layout_witness :
  length (roadSegmentsFrom 1000 (ofZ 0)) = 100%nat.
Proof.
  destruct (createRoad_layout 1000) as [-> _]; [lia|].
  now rewrite length_map, length_seq.
Defined.

Lemma roadStripesFrom_aligned (fuel : nat) : forall z,
  Forall stripeAligned (roadStripesFrom fuel z).
Proof.
  induction fuel as [|fuel IH]; intros z; cbn [roadStripesFrom];
    [constructor|].
  destruct (z <? roadLength); [|constructor].
  constructor; [reflexivity|apply IH].
Qed.

Lemma scrollItem_aligned (margin d : number) (it : RoadItem) :
  stripeAligned it -> stripeAligned (scrollItem margin d it).
Proof.
  unfold stripeAligned, scrollItem. intros ->.
  destruct (_ <? _); reflexivity.
Qed.

Lemma scrollTree_aligned (d : number) (t : Tree) :
  treeAligned t -> treeAligned (scrollTree d t).
Proof.
  unfold treeAligned, scrollTree. intros ->.
  destruct (_ <? _); reflexivity.
Qed.

Lemma sceneryOf_onKeyDown (k : Key) (s : State) :
  sceneryOf (onKeyDown k s) = sceneryOf s.
Proof.
  unfold sceneryOf, onKeyDown, startJump.
  destruct (negb (gameActive s) && negb (isPaused s)); [reflexivity|].
  destruct (isPaused s), k; cbn; split_ifs; reflexivity.
Qed.

Lemma sceneryOf_step (s : State) (e : Event) :
  sceneryOf (step s e) = sceneryOf s
  \/ exists d,
      sceneryOf (step s e)
      = (map (scrollItem (segmentLength / ofZ 2) d) (roadSegments s),
         map (scrollItem (ofZ 20) d) (roadStripes s),
         map (scrollTree d) (trees s),
         map (scrollBuilding d) (buildings s)).
Proof.
  destruct e as [deltaTime r|k| |]; cbn [step]; try (now left).
  - unfold animate. destruct (gameActive s); [|now left].
    destruct (isPaused s) eqn:Hp.
    + left. now rewrite (updateGame_frozen deltaTime r s Hp).
    + right. exists (frameDistance deltaTime s).
      now apply sceneryOf_updateGame.
  - left. apply sceneryOf_onKeyDown.
Qed.

Lemma sceneryOk_step (n1 n2 n3 n4 : nat) (s : State) (e : Event) :
  sceneryOk n1 n2 n3 n4 s -> sceneryOk n1 n2 n3 n4 (step s e).
Proof.
  intros (Hs & Ht & Hl). unfold sceneryOk.
  destruct (sceneryOf_step s e) as [E|[d E]]; unfold sceneryOf in E;
    injection E as -> -> -> ->; [auto|].
  rewrite !length_map. split; [|split; [|exact Hl]].
  - apply Forall_map. revert Hs. apply Forall_impl.
    intros it. apply scrollItem_aligned.
  - apply Forall_map. revert Ht. apply Forall_impl.
    intros t. apply scrollTree_aligned.
Qed.

(** X17. The scenery is neither created nor destroyed after the page is
    mounted, and its meshes never drift apart: over any session there are
    as many segments, stripes, trees and buildings as at the start, every
    stripe's mesh has the stripe's [z], and every tree's foliage has the
    [z] of its trunk, recycled or not. *)
Theorem scenery_stays_aligned
        (segs bs : list RoadItem) (fuel : nat) (zs : list number)
        (es : list Event) :
  let stripes := roadStripesFrom fuel (ofZ 0) in
  let s := run es (initialState segs stripes (map createTree zs) bs) in
  Forall stripeAligned (roadStripes s)
  /\ Forall treeAligned (trees s)
  /\ (length (roadSegments s), length (roadStripes s),
      length (trees s), length (buildings s))
     = (length segs, length stripes, length zs, length bs).
Proof.
  intros stripes s.
  apply (run_invariant
           (sceneryOk (length segs) (length stripes) (length zs)
                      (length bs))).
  - intros s0 e. apply sceneryOk_step.
  - unfold sceneryOk. cbn [initialState roadStripes trees roadSegments
                           buildings].
    split; [apply roadStripesFrom_aligned|].
    split; [|now rewrite length_map].
    apply Forall_map, Forall_forall. intros z _. reflexivity.
Qed.

(** ** The smoke effect *)

Lemma ageParticles_length (deltaTime : number) (drift : nat -> number)
      (l : list Particle) : forall i,
  (length (ageParticles deltaTime drift i l) <= length l)%nat.
Proof.
  induction l as [|q rest IH]; intros i; cbn [ageParticles length];
    [lia|].
  specialize (IH (S i)). destruct (_ <=? ofZ 0); cbn [length]; lia.
Qed.

Lemma createSmokeParticle_length (spreadDraw heightDraw : number)
      (p : Object3D) (fx : Smoke) :
  (length (smokeParticles fx) <= 50)%nat ->
  (length (smokeParticles (createSmokeParticle spreadDraw heightDraw p fx))
   <= 50)%nat.
Proof.
  intros H. unfold createSmokeParticle. cbn [smokeParticles].
  match goal with
  | |- context [Nat.ltb 50 ?n] => destruct (Nat.ltb_spec 50 n) as [L|L]
  end; [|exact L].
  rewrite length_app in L. cbn [length] in L.
  destruct (smokeParticles fx) as [|q rest]; cbn [app tl length] in *;
    [lia|].
  rewrite length_app. cbn [length]. lia.
Qed.

Lemma smokeStep_length (fx : Smoke) (e : SmokeEvent) :
  (length (smokeParticles fx) <= 50)%nat ->
  (length (smokeParticles (smokeStep fx e)) <= 50)%nat.
Proof.
  intros H. destruct e as [deltaTime sd hd drift s|dd s]; cbn [smokeStep];
    [|exact H].
  unfold smokeFrame, updateSmokeParticles. cbn [smokeParticles].
  match goal with
  | |- (length (ageParticles _ _ _ (smokeParticles ?f)) <= 50)%nat =>
      assert (Hf : (length (smokeParticles f) <= 50)%nat)
  end.
  { destruct (smokeActive fx && _); [|exact H]. cbn [smokeParticles].
    now apply createSmokeParticle_length. }
  eapply Nat.le_trans; [apply ageParticles_length|exact Hf].
Qed.

(** X18. There are never more than 50 smoke particles, however long the
    smoke has been on and whatever the frame times: a particle created
    beyond 50 pushes the oldest out, and ageing only removes particles. *)
Theorem smoke_particles_capped (es : list SmokeEvent) :
  (length (smokeParticles (fold_left smokeStep es initialSmoke)) <= 50)%nat.
Proof.
  assert (G : forall fx, (length (smokeParticles fx) <= 50)%nat ->
                         (length (smokeParticles (fold_left smokeStep es fx))
                          <= 50)%nat).
  { induction es as [|e rest IH]; intros fx H; [exact H|].
    cbn [fold_left]. apply IH. now apply smokeStep_length. }
  apply G. cbn. lia.
Qed.

(** X19. At the cap the smoke is a queue: with 50 particles in the air, a
    new one takes the last place and the oldest, at the head of the array,
    is dropped. *)
Theorem createSmokeParticle_at_cap (spreadDraw heightDraw : number)
        (p : Object3D) (fx : Smoke) :
  length (smokeParticles fx) = 50%nat ->
  exists smoke,
    smokeParticles (createSmokeParticle spreadDraw heightDraw p fx)
    = tl (smokeParticles fx) ++ [smoke]
    /\ particleOpacity smoke = dec 7 1
    /\ posZ (particlePosition smoke) = posZ (position p) - ofZ 3.
Proof.
  intros H. unfold createSmokeParticle. cbn [smokeParticles].
  eexists. rewrite length_app, H. cbn [length Nat.add Nat.ltb Nat.leb].
  destruct (smokeParticles fx) as [|q rest]; [discriminate|].
  cbn [app tl]. repeat split.
Qed.

Lemma createSmokeParticle_at_cap_witness :
  length (smokeParticles
            (createSmokeParticle (dec 5 1) (dec 5 1) (player sampleStarted)
               (mkSmoke (repeat samplePuff 50) (ofZ 0) true (ofZ 0)
                        (ofZ 5))))
  = 50%nat.
Proof.
  destruct (createSmokeParticle_at_cap (dec 5 1) (dec 5 1)
              (player sampleStarted)
              (mkSmoke (repeat samplePuff 50) (ofZ 0) true (ofZ 0) (ofZ 5)))
    as (smoke & -> & _); reflexivity.
Defined.

